(** * E-commerce REST backend: token model, auth middleware, response cache

  A shallow embedding of the parts of the Express application that carry
  state and contracts:

  - the RefreshToken model (unnamed/part_010): [isExpired], [isValid],
    [findValidToken], [revoke], [revokeAllUserTokens],
    [cleanupExpiredTokens];
  - the User model (unnamed/part_010): [toJSON], [canAccess];
  - the auth middleware (unnamed/part_002): [authenticate], [optionalAuth],
    [authorize], [adminOnly], [ownerOrAdmin], [requireEmailVerification],
    [userRateLimit], [requirePermission];
  - src/middlewares/cache.js: [MemoryCache], [cacheMiddleware], [apiCache],
    [invalidateCache];
  - the constants exported next to src/config/jwt.js.

  Conventions.  Instants ([Date.now()], [new Date()], a stored [DATE]) are
  integers counting milliseconds.  A JavaScript [Map] with primitive keys is
  a [gmap].  An Express middleware is a function from the request (and the
  store it closes over) to an [outcome]: either it calls [next()] or it ends
  the request with a status and a message.  Logging is left out: no logger
  call changes what a middleware answers. *)

From Stdlib Require Import ZArith String List Bool.
From stdpp Require Import gmap strings list fin_maps.

Open Scope Z_scope.
Open Scope string_scope.

Set Warnings "-register-all".

(** ** JavaScript values and the two coercions the code relies on *)

Module Js.

(** JSON-like values.  Numbers are the integer-valued ones; [JNaN] is kept
    apart because it is the one number besides zero that is falsy. *)
Inductive value : Type :=
| JUndefined
| JNull
| JBool (b : bool)
| JNum (n : Z)
| JNaN
| JStr (s : string)
| JArr (items : list value)
| JObj (fields : list (string * value)).

(** [ToBoolean]: what [if (v)] and [!v] test. *)
Definition truthy (v : value) : bool :=
  match v with
  | JUndefined | JNull | JNaN => false
  | JBool b => b
  | JNum n => negb (Z.eqb n 0)
  | JStr s => negb (String.eqb s "")
  | JArr _ | JObj _ => true
  end.

(** A nullable boolean column read back from the database: [None] is SQL
    [NULL] (JavaScript [null]). *)
Definition truthy_flag (b : option bool) : bool :=
  match b with
  | Some true => true
  | _ => false
  end.

(** [s.startsWith(p)] *)
Fixpoint startsWith (p s : string) : bool :=
  match p, s with
  | EmptyString, _ => true
  | String a p', String b s' => Ascii.eqb a b && startsWith p' s'
  | String _ _, EmptyString => false
  end.

(** [s.substring(n)]: the suffix from index [n]. *)
Fixpoint substring_from (n : nat) (s : string) : string :=
  match n, s with
  | O, _ => s
  | S n', String _ s' => substring_from n' s'
  | S _, EmptyString => EmptyString
  end.

(** [s.includes(p)]: [p] occurs somewhere in [s]. *)
Fixpoint includes (s p : string) : bool :=
  startsWith p s ||
  match s with
  | EmptyString => false
  | String _ s' => includes s' p
  end.

(** A call that may throw: the value, or the [name] of the error. *)
Inductive attempt (A : Type) : Type :=
| Returns (a : A)
| Throws (name : string).
Arguments Returns {A} a.
Arguments Throws {A} name.

(** [s.endsWith(p)] *)
Definition endsWith (p s : string) : bool :=
  Nat.leb (String.length p) (String.length s)
  && String.eqb (substring_from (String.length s - String.length p) s) p.

(** [s.slice(0, -n)]: [s] without its last [n] characters. *)
Definition slice_end (n : nat) (s : string) : string :=
  String.substring 0 (String.length s - n) s.

(** [/[a-zA-Z0-9]/] on one character. *)
Definition is_alnum (c : Ascii.ascii) : bool :=
  let n := Ascii.nat_of_ascii c in
  (Nat.leb 48 n && Nat.leb n 57)
  || (Nat.leb 65 n && Nat.leb n 90)
  || (Nat.leb 97 n && Nat.leb n 122).

(** The character ['_']. *)
Definition underscore : Ascii.ascii := Ascii.ascii_of_nat 95.

(** [s.replace(/[^a-zA-Z0-9]/g, '_')].  The strings this is applied to come
    from the request line, which Node decodes one byte to one character. *)
Fixpoint replace_non_alnum (s : string) : string :=
  match s with
  | EmptyString => EmptyString
  | String c s' =>
    String (if is_alnum c then c else underscore) (replace_non_alnum s')
  end.

(** The property names every object literal inherits from
    [Object.prototype]: [o[name]] is defined for them although the literal
    does not list them. *)
Definition object_prototype_names : list string :=
  ["constructor"; "__defineGetter__"; "__defineSetter__"; "hasOwnProperty";
   "__lookupGetter__"; "__lookupSetter__"; "isPrototypeOf";
   "propertyIsEnumerable"; "toString"; "valueOf"; "__proto__";
   "toLocaleString"].

Definition inherited (name : string) : bool :=
  existsb (String.eqb name) object_prototype_names.

(** Node's check of a header value ([setHeader] throws [ERR_INVALID_CHAR],
    a [TypeError], otherwise): a tab, 0x20 to 0x7e, and 0x80 to 0xff are the
    characters allowed.  A string here is a sequence of characters below
    256; a character above 0xff, which no header may carry either, has no
    counterpart. *)
Definition valid_header_char (c : Ascii.ascii) : bool :=
  let n := Ascii.nat_of_ascii c in
  Nat.eqb n 9 || (Nat.leb 32 n && Nat.leb n 126) || Nat.leb 128 n.

Fixpoint valid_header_value (s : string) : bool :=
  match s with
  | EmptyString => true
  | String c s' => valid_header_char c && valid_header_value s'
  end.

End Js.

(** ** What a middleware does with a request *)

Inductive outcome : Type :=
| Next                                  (* next() was called *)
| Respond (status : Z) (message : string).  (* res.status(s).json(...) *)

(** ** config/constants.js (the second module in src/config/jwt.js) *)

Module Constants.
Definition USER_ROLES_ADMIN : string := "admin".
Definition USER_ROLES_USER : string := "user".
Definition USER_ROLES_MODERATOR : string := "moderator".
Definition USER_STATUS_ACTIVE : string := "active".
Definition USER_STATUS_INACTIVE : string := "inactive".
Definition USER_STATUS_SUSPENDED : string := "suspended".
Definition USER_STATUS_PENDING : string := "pending".
Definition CACHE_TTL_MEDIUM : Z := 1800.
End Constants.

(** ** The RefreshToken model *)

Module RefreshToken.

(** How an instance holds a DATE attribute.  An instance built in the
    process, or loaded in the test and production environments, carries a
    [Date].  A row loaded with the connection options of the development
    block of config/database.js ([dateStrings: true, typeCast: true]; it is
    the environment models/index.js takes when NODE_ENV is not set) carries
    the text the driver returned, 'YYYY-MM-DD hh:mm:ss'. *)
Inductive held_date : Type :=
| AsDate
| AsText.

Record t : Type := mk {
  id : Z;
  token : string;
  userId : Z;
  expiresAt : Z;                 (* the instant stored in expires_at *)
  isRevoked : option bool;       (* defaultValue false, nullable *)
  userAgent : option string;
  ipAddress : option string;
  expiresAt_held : held_date     (* what this.expiresAt is on the instance *)
}.

(** [new Date() > this.expiresAt].  Two dates are compared as instants.  A
    date and a text are compared as numbers: the text converts to [NaN], and
    every comparison with [NaN] is false. *)
Definition isExpired (now : Z) (r : t) : bool :=
  match expiresAt_held r with
  | AsDate => Z.ltb (expiresAt r) now
  | AsText => false
  end.

(** [!this.isRevoked && !this.isExpired()] *)
Definition isValid (now : Z) (r : t) : bool :=
  negb (Js.truthy_flag (isRevoked r)) && negb (isExpired now r).

(** The [where] clause of [findValidToken]:
    [token = ? AND is_revoked = false AND expires_at > now].  A [NULL]
    flag does not satisfy [is_revoked = false]. *)
Definition where_valid (now : Z) (tok : string) (r : t) : bool :=
  String.eqb (token r) tok
  && match isRevoked r with Some false => true | _ => false end
  && Z.ltb now (expiresAt r).

(** [this.findOne({ where })] over the rows of the table; the comparison is
    made by the database, on the stored instants. *)
Definition findValidToken (now : Z) (rows : list t) (tok : string) : option t :=
  List.find (where_valid now tok) rows.

(** The row with [is_revoked] set. *)
Definition set_revoked (r : t) : t :=
  mk (id r) (token r) (userId r) (expiresAt r) (Some true)
     (userAgent r) (ipAddress r) (expiresAt_held r).

(** [revoke]: [this.isRevoked = true; await this.save()].  [save] writes the
    changed attributes of the instance to the row with its primary key, and
    writes nothing when the assignment changed nothing.  The instance
    afterwards, and the table. *)
Definition revoke (this : t) (rows : list t) : t * list t :=
  match isRevoked this with
  | Some true => (this, rows)
  | _ =>
    (set_revoked this,
     List.map (fun r => if Z.eqb (id r) (id this) then set_revoked r else r) rows)
  end.

(** [revokeAllUserTokens(userId)]:
    [UPDATE ... SET is_revoked = true WHERE user_id = ? AND is_revoked = false]. *)
Definition revokeAllUserTokens (uid : Z) (rows : list t) : list t :=
  List.map
    (fun r =>
       if Z.eqb (userId r) uid
          && match isRevoked r with Some false => true | _ => false end
       then set_revoked r else r)
    rows.

(** [cleanupExpiredTokens()]: [DELETE ... WHERE expires_at < now]; the table
    afterwards and the number of rows destroyed. *)
Definition cleanupExpiredTokens (now : Z) (rows : list t) : list t * Z :=
  (List.filter (fun r => negb (Z.ltb (expiresAt r) now)) rows,
   Z.of_nat (length (List.filter (fun r => Z.ltb (expiresAt r) now) rows))).

End RefreshToken.

(** ** The User model *)

Module User.

(** The attributes the middleware reads from a loaded row. *)
Record t : Type := mk {
  id : Z;
  email : string;
  role : string;
  status : string;
  isEmailVerified : bool
}.

(** [this.get()]: every stored attribute with its value, by name. *)
Abbreviation values := (gmap string Js.value).

(** [toJSON]: a copy of the values with five [delete]s applied in order. *)
Definition toJSON (this_get : values) : values :=
  let values0 := this_get in
  let values1 := delete "password" values0 in
  let values2 := delete "resetPasswordToken" values1 in
  let values3 := delete "resetPasswordExpires" values2 in
  let values4 := delete "emailVerificationToken" values3 in
  delete "twoFactorSecret" values4.

(** The names [toJSON] removes. *)
Definition hidden : list string :=
  ["password"; "resetPasswordToken"; "resetPasswordExpires";
   "emailVerificationToken"; "twoFactorSecret"].

(** The [permissions] literal of [canAccess], by role. *)
Definition permissions (role : string) : option (list string) :=
  if String.eqb role Constants.USER_ROLES_ADMIN then Some ["*"]
  else if String.eqb role Constants.USER_ROLES_MODERATOR
  then Some ["users.read"; "products.*"; "orders.read"]
  else if String.eqb role Constants.USER_ROLES_USER
  then Some ["profile.*"; "orders.own"]
  else None.

(** [permissions[this.role] || []].  For a role that is no key of the
    literal the lookup is [undefined], except for the names inherited from
    [Object.prototype]: there it is a function or an object, which has no
    [includes], and the call that follows throws a [TypeError]. *)
Definition userPermissions (role : string) : Js.attempt (list string) :=
  match permissions role with
  | Some ps => Js.Returns ps
  | None =>
    if Js.inherited role then Js.Throws "TypeError" else Js.Returns []
  end.

(** The callback of [userPermissions.some(...)]. *)
Definition permits (resource permission : string) : bool :=
  if Js.endsWith ".*" permission
  then Js.startsWith (Js.slice_end 2 permission) resource
  else String.eqb permission resource.

(** [canAccess(resource)] *)
Definition canAccess (this : t) (resource : string) : Js.attempt bool :=
  match userPermissions (role this) with
  | Js.Throws name => Js.Throws name
  | Js.Returns ps =>
    if existsb (String.eqb "*") ps then Js.Returns true
    else Js.Returns (existsb (permits resource) ps)
  end.

End User.

(** ** The request object *)

Record Request : Type := mkRequest {
  method : string;
  originalUrl : string;
  path : string;
  query : string;                      (* JSON.stringify(req.query) *)
  authorization : option string;       (* req.headers.authorization *)
  params : gmap string string;         (* req.params *)
  user : option User.t                 (* req.user *)
}.

Definition set_user (u : User.t) (req : Request) : Request :=
  mkRequest (method req) (originalUrl req) (path req) (query req)
            (authorization req) (params req) (Some u).

(** ** The auth middleware *)

Module Auth.

Import Constants.

(** The message the [catch] block of [authenticate] picks from [error.name]. *)
Definition catch_message (name : string) : string :=
  if String.eqb name "TokenExpiredError" then "Token expired"
  else if String.eqb name "JsonWebTokenError" then "Invalid token"
  else "Authentication failed".

Section Authenticate.

(** [jwt.verify(token, jwtSecret)]: the [id] claim of the decoded payload
    ([None] when the payload carries none), or the error thrown. *)
Variable jwt_verify : string -> Js.attempt (option Z).

(** [User.findByPk(id, ...)]: the row, [None] for [null], or a thrown
    storage error. *)
Variable findByPk : option Z -> Js.attempt (option User.t).

(** The request after the middleware ran, and what it did. *)
Definition authenticate (req : Request) : Request * outcome :=
  match authorization req with
  | None => (req, Respond 401 "No token provided")
  | Some authHeader =>
    if String.eqb authHeader "" || negb (Js.startsWith "Bearer " authHeader)
    then (req, Respond 401 "No token provided")
    else
      let token := Js.substring_from 7 authHeader in
      match jwt_verify token with
      | Js.Throws name => (req, Respond 401 (catch_message name))
      | Js.Returns decoded_id =>
        match findByPk decoded_id with
        | Js.Throws name => (req, Respond 401 (catch_message name))
        | Js.Returns None =>
          (req, Respond 401 "Invalid token - user not found")
        | Js.Returns (Some u) =>
          if negb (String.eqb (User.status u) USER_STATUS_ACTIVE)
          then (req, Respond 401 "Account is not active")
          else (set_user u req, Next)
        end
      end
  end.

(** The conditions under which a request is let through as user [u]: a
    bearer token that verifies and names an existing user whose status is
    active. *)
Definition session_granted (req : Request) (u : User.t) : Prop :=
  exists authHeader decoded_id,
    authorization req = Some authHeader /\
    Js.startsWith "Bearer " authHeader = true /\
    jwt_verify (Js.substring_from 7 authHeader) = Js.Returns decoded_id /\
    findByPk decoded_id = Js.Returns (Some u) /\
    User.status u = USER_STATUS_ACTIVE.

End Authenticate.

(** [authorize(...roles)]; [roles.includes(req.user.role)] is [existsb]. *)
Definition authorize (roles : list string) (req : Request) : outcome :=
  match user req with
  | None => Respond 401 "Authentication required"
  | Some u =>
    if negb (existsb (String.eqb (User.role u)) roles)
    then Respond 403 "Insufficient permissions"
    else Next
  end.

Definition adminOnly : Request -> outcome := authorize [USER_ROLES_ADMIN].

Definition adminOrModerator : Request -> outcome :=
  authorize [USER_ROLES_ADMIN; USER_ROLES_MODERATOR].

Section OwnerOrAdmin.

(** [req.params.id == req.user.id]: abstract equality between the route
    parameter (a string, or [undefined] when the route has none) and the
    numeric primary key, as the engine decides it. *)
Variable loose_eq : option string -> Z -> bool.

(** [userIdField] is accepted and never read, as in the source. *)
Definition ownerOrAdmin (resourceIdParam userIdField : string)
    (req : Request) : outcome :=
  match user req with
  | None => Respond 401 "Authentication required"
  | Some u =>
    if String.eqb (User.role u) USER_ROLES_ADMIN then Next
    else if String.eqb resourceIdParam "id"
            && loose_eq (params req !! "id") (User.id u)
    then Next
    else Respond 403 "Access denied"
  end.

End OwnerOrAdmin.

(** [userRequests]: user id to the instants of the requests let through. *)
Abbreviation history := (gmap Z (list Z)).

(** One call, at instant [now], of the middleware that
    [userRateLimit(maxRequests, windowMs)] returns.  [validRequests] is the
    array stored in the map, so the [push] after [set] is visible in the
    store. *)
Definition userRateLimit (maxRequests windowMs : Z)
    (userRequests : history) (req : Request) (now : Z) : history * outcome :=
  match user req with
  | None => (userRequests, Next)
  | Some u =>
    let userId := User.id u in
    let windowStart := now - windowMs in
    let requests := default [] (userRequests !! userId) in
    let validRequests :=
      List.filter (fun timestamp => Z.ltb windowStart timestamp) requests in
    if Z.leb maxRequests (Z.of_nat (length validRequests))
    then (<[userId := validRequests]> userRequests,
          Respond 429 "Rate limit exceeded")
    else (<[userId := (validRequests ++ [now])%list]> userRequests, Next)
  end.

(** The logged requests of [userId] that are still inside the window at
    [now]: the [validRequests] of the middleware. *)
Definition live (windowMs : Z) (userRequests : history) (userId now : Z)
    : list Z :=
  List.filter (fun timestamp => Z.ltb (now - windowMs) timestamp)
              (default [] (userRequests !! userId)).

(** The same user sending requests at the instants [arrivals], in order. *)
Fixpoint run_requests (maxRequests windowMs : Z) (userRequests : history)
    (req : Request) (arrivals : list Z) : history * list outcome :=
  match arrivals with
  | [] => (userRequests, [])
  | now :: rest =>
    let '(store1, o) := userRateLimit maxRequests windowMs userRequests req now in
    let '(store2, os) := run_requests maxRequests windowMs store1 req rest in
    (store2, o :: os)
  end.

Section OptionalAuth.

Variable jwt_verify : string -> Js.attempt (option Z).
Variable findByPk : option Z -> Js.attempt (option User.t).

(** [optionalAuth]: every path ends in [next()]. *)
Definition optionalAuth (req : Request) : Request * outcome :=
  match authorization req with
  | None => (req, Next)
  | Some authHeader =>
    if String.eqb authHeader "" || negb (Js.startsWith "Bearer " authHeader)
    then (req, Next)
    else
      let token := Js.substring_from 7 authHeader in
      match jwt_verify token with
      | Js.Throws _ => (req, Next)
      | Js.Returns decoded_id =>
        match findByPk decoded_id with
        | Js.Throws _ => (req, Next)
        | Js.Returns None => (req, Next)
        | Js.Returns (Some u) =>
          if String.eqb (User.status u) USER_STATUS_ACTIVE
          then (set_user u req, Next)
          else (req, Next)
        end
      end
  end.

(** [authenticate, adminOnly]: the guard in front of the admin routes.  The
    second middleware runs on the request the first one leaves, and only if
    the first called [next()]. *)
Definition admin_guard (req : Request) : Request * outcome :=
  match authenticate jwt_verify findByPk req with
  | (req1, Next) => (req1, adminOnly req1)
  | rejected => rejected
  end.

End OptionalAuth.

(** [requireEmailVerification]; a [null] flag reads as [false]. *)
Definition requireEmailVerification (req : Request) : outcome :=
  match user req with
  | None => Respond 401 "Authentication required"
  | Some u =>
    if negb (User.isEmailVerified u)
    then Respond 403 "Email verification required"
    else Next
  end.

(** [requirePermission(resource)]; an exception of [canAccess] leaves the
    middleware. *)
Definition requirePermission (resource : string) (req : Request)
    : Js.attempt outcome :=
  match user req with
  | None => Js.Returns (Respond 401 "Authentication required")
  | Some u =>
    match User.canAccess u resource with
    | Js.Throws name => Js.Throws name
    | Js.Returns allowed =>
      if negb allowed
      then Js.Returns (Respond 403 "Insufficient permissions")
      else Js.Returns Next
    end
  end.

(** The arrivals of a run that were let through. *)
Fixpoint admitted (arrivals : list Z) (outcomes : list outcome) : list Z :=
  match arrivals, outcomes with
  | now :: rest, Next :: os => now :: admitted rest os
  | _ :: rest, _ :: os => admitted rest os
  | _, _ => []
  end.

(** The instants [arrivals] are in the order of the clock, none before
    [last]. *)
Fixpoint in_order (last : Z) (arrivals : list Z) : bool :=
  match arrivals with
  | [] => true
  | now :: rest => Z.leb last now && in_order now rest
  end.

(** Every admitted instant is at most the [maxRequests]-th admitted one in
    the window of [windowMs] that ends with it. *)
Definition within_limit (maxRequests windowMs : Z) (admitted : list Z) : Prop :=
  forall before now after,
    admitted = (before ++ now :: after)%list ->
    Z.of_nat (length (List.filter (fun t => Z.ltb (now - windowMs) t)
                                  (before ++ [now])%list))
    <= maxRequests.

End Auth.

(** ** src/middlewares/cache.js *)

Module Cache.

Import Constants.

(** What [MemoryCache.set] stores under a key. *)
Record item : Type := mkItem {
  data : Js.value;
  timestamp : Z;        (* Date.now() at the time of the set *)
  ttl : Z               (* milliseconds *)
}.

(** [this.cache] and [this.timers].  A pending timeout is represented by the
    instant from which the event loop may run its callback. *)
Record MemoryCache : Type := mkCache {
  cache : gmap string item;
  timers : gmap string Z
}.

Definition empty : MemoryCache := mkCache ∅ ∅.

(** Node's [setTimeout(f, delay)] uses a delay of 1 when [delay] is below 1
    or above [TIMEOUT_MAX]. *)
Definition TIMEOUT_MAX : Z := 2147483647.

Definition timer_due (now delay : Z) : Z :=
  now + (if Z.leb 1 delay && Z.leb delay TIMEOUT_MAX then delay else 1).

(** [set(key, value, ttl)]; clearing the old timer is subsumed by the
    overwrite of [timers]. *)
Definition set (key : string) (value : Js.value) (ttl_s : Z) (now : Z)
    (this : MemoryCache) : MemoryCache :=
  mkCache (<[key := mkItem value now (ttl_s * 1000)]> (cache this))
          (<[key := timer_due now (ttl_s * 1000)]> (timers this)).

(** [delete(key)]: the cache afterwards and the boolean returned. *)
Definition delete (key : string) (this : MemoryCache) : MemoryCache * bool :=
  (mkCache (base.delete key (cache this)) (base.delete key (timers this)),
   bool_decide (is_Some (cache this !! key))).

(** [get(key)]: the cache afterwards and the value returned ([JNull] for
    [null]). *)
Definition get (key : string) (now : Z) (this : MemoryCache)
    : MemoryCache * Js.value :=
  match cache this !! key with
  | None => (this, Js.JNull)
  | Some item =>
    if Z.ltb (ttl item) (now - timestamp item)
    then (fst (delete key this), Js.JNull)
    else (this, data item)
  end.

(** [keys()].  A [Map] lists its keys in insertion order, a [gmap] in its
    own; every use below deletes a set of keys, which no order affects. *)
Definition keys (this : MemoryCache) : list string :=
  (map_to_list (cache this)).*1.

(** [ks.forEach(key => cache.delete(key))] *)
Definition delete_all (ks : list string) (this : MemoryCache) : MemoryCache :=
  foldl (fun c key => fst (delete key c)) this ks.

(** The event loop at instant [now]: every timeout that is due runs its
    callback [() => this.delete(key)]. *)
Definition fire_timers (now : Z) (this : MemoryCache) : MemoryCache :=
  delete_all
    (map_to_list (filter (fun kd => snd kd <= now) (timers this))).*1 this.

(** The event loop running due timers at each of the instants [ticks]. *)
Definition event_loop (ticks : list Z) (this : MemoryCache) : MemoryCache :=
  foldl (fun c tick => fire_timers tick c) this ticks.

(** The options of [cacheMiddleware]. *)
Record Options : Type := mkOptions {
  opt_ttl : Z;
  keyGenerator : option (Request -> string);
  condition : option (Request -> bool);
  skipCache : bool;
  cacheAuthenticated : bool
}.

Definition default_options : Options :=
  mkOptions CACHE_TTL_MEDIUM None None false false.

(** The response object as far as the middleware touches it. *)
Record Response : Type := mkResponse {
  statusCode : Z;
  headers : gmap string string;
  body : option Js.value           (* what the original res.json was given *)
}.

(** How the middleware leaves the pipeline. *)
Inductive lookup : Type :=
| Bypass                                          (* next(), res.json untouched *)
| Hit (cacheKey : string) (cachedResponse : Js.value)  (* answered from the cache *)
| Miss (cacheKey : string).                       (* res.json wrapped, next() *)

Definition cache_key (opts : Options) (req : Request) : string :=
  match keyGenerator opts with
  | Some g => g req
  | None => method req ++ ":" ++ originalUrl req ++ ":" ++ query req
  end.

(** The body of the middleware up to [next()]. *)
Definition cacheMiddleware (opts : Options) (NODE_ENV : option string)
    (this : MemoryCache) (req : Request) (now : Z) : MemoryCache * lookup :=
  if skipCache opts || bool_decide (NODE_ENV = Some "test") then (this, Bypass)
  else if bool_decide (is_Some (user req)) && negb (cacheAuthenticated opts)
  then (this, Bypass)
  else
    let cacheKey := cache_key opts req in
    if match condition opts with Some cond => negb (cond req) | None => false end
    then (this, Bypass)
    else
      let '(this1, cachedResponse) := get cacheKey now this in
      if Js.truthy cachedResponse then (this1, Hit cacheKey cachedResponse)
      else (this1, Miss cacheKey).

(** [originalJson.call(this, data)] *)
Definition originalJson (res : Response) (payload : Js.value) : Response :=
  mkResponse (statusCode res) (headers res) (Some payload).

(** [res.set(name, v)]: Node's [setHeader] throws when the value has a
    character no header may carry. *)
Definition res_set (name v : string) (res : Response) : Js.attempt Response :=
  if Js.valid_header_value v
  then Js.Returns (mkResponse (statusCode res) (<[name := v]> (headers res))
                              (body res))
  else Js.Throws "TypeError".

(** The replacement [res.json] installed on a miss, called at [now]: the
    cache and the response object afterwards, and the error thrown, if any.
    The entry is stored before the headers are set, so a throw of [res.set]
    leaves it stored, and [originalJson] is not reached. *)
Definition json_on_miss (opts : Options) (cacheKey : string)
    (this : MemoryCache) (res : Response) (payload : Js.value) (now : Z)
    : MemoryCache * Response * option string :=
  if Z.eqb (statusCode res) 200
  then
    let this1 := set cacheKey payload (opt_ttl opts) now this in
    match res_set "X-Cache" "MISS" res with
    | Js.Throws name => (this1, res, Some name)
    | Js.Returns res1 =>
      match res_set "X-Cache-Key" cacheKey res1 with
      | Js.Throws name => (this1, res1, Some name)
      | Js.Returns res2 => (this1, originalJson res2 payload, None)
      end
    end
  else (this, originalJson res payload, None).

(** A route handler: from the request and the instant it starts, the status
    it sets and the payload it passes to [res.json]. *)
Definition handler : Type := Request -> Z -> Z * Js.value.

(** What one request through [cacheMiddleware] and the handler produced.
    [thrown] is the error that left the middleware or the wrapped [res.json],
    if any; [response] is then the response object as the throw left it, with
    no body given to the original [res.json], and what the client receives
    is up to the error handler. *)
Record served : Type := mkServed {
  cache_after : MemoryCache;
  response : Response;
  handler_ran : bool;
  thrown : option string
}.

Definition fresh_response (status : Z) : Response := mkResponse status ∅ None.

(** A request entering at [now]; the handler, when it runs, answers at
    [sent]. *)
Definition serve (opts : Options) (NODE_ENV : option string) (h : handler)
    (this : MemoryCache) (req : Request) (now sent : Z) : served :=
  match cacheMiddleware opts NODE_ENV this req now with
  | (this1, Bypass) =>
    let '(status, payload) := h req now in
    mkServed this1 (originalJson (fresh_response status) payload) true None
  | (this1, Hit cacheKey cachedResponse) =>
    match res_set "X-Cache" "HIT" (fresh_response 200) with
    | Js.Throws name => mkServed this1 (fresh_response 200) false (Some name)
    | Js.Returns res1 =>
      match res_set "X-Cache-Key" cacheKey res1 with
      | Js.Throws name => mkServed this1 res1 false (Some name)
      | Js.Returns res2 =>
        mkServed this1 (originalJson res2 cachedResponse) false None
      end
    end
  | (this1, Miss cacheKey) =>
    let '(status, payload) := h req now in
    let '(this2, res, error) :=
      json_on_miss opts cacheKey this1 (fresh_response status) payload sent in
    mkServed this2 res true error
  end.

(** One pattern of [invalidateCache]: the keys that include it are listed,
    then deleted. *)
Definition invalidate_pattern (this : MemoryCache) (pattern : string)
    : MemoryCache :=
  delete_all (List.filter (fun key => Js.includes key pattern) (keys this)) this.

(** The replacement [res.send] installed by [invalidateCache(patterns)]:
    the cache at the moment [originalSend] is called. *)
Definition send_on_invalidate (patterns : list string) (this : MemoryCache)
    (res : Response) : MemoryCache :=
  if Z.leb 200 (statusCode res) && Z.ltb (statusCode res) 300
  then if Nat.ltb 0 (length patterns)
       then foldl invalidate_pattern this patterns
       else this
  else this.

(** [clear()] *)
Definition clear (this : MemoryCache) : MemoryCache := mkCache ∅ ∅.

(** The [keyGenerator] of [apiCache]: [parts.join(':')]. *)
Definition api_key (req : Request) : string :=
  "api" ++ ":" ++ method req ++ ":" ++ Js.replace_non_alnum (path req)
        ++ ":" ++ query req.

(** [apiCache(ttl)]: the options it passes to [cacheMiddleware]. *)
Definition apiCache (ttl_s : Z) : Options :=
  mkOptions ttl_s (Some api_key)
            (Some (fun req => String.eqb (method req) "GET")) false false.

(** The states of the cache object: it starts empty and changes only
    through its methods and its timers. *)
Inductive reachable : MemoryCache -> Prop :=
| reach_empty : reachable empty
| reach_set key value ttl_s now this :
    reachable this -> reachable (set key value ttl_s now this)
| reach_get key now this :
    reachable this -> reachable (fst (get key now this))
| reach_delete key this :
    reachable this -> reachable (fst (delete key this))
| reach_clear this :
    reachable this -> reachable (clear this)
| reach_timers now this :
    reachable this -> reachable (fire_timers now this).

(** Entries and timers in step: every entry has a pending timeout, due at
    the instant [setTimeout] was given for it, and no timeout is pending for
    a key without an entry. *)
Definition in_step (this : MemoryCache) : Prop :=
  forall key,
    (forall it, cache this !! key = Some it ->
       timers this !! key = Some (timer_due (timestamp it) (ttl it))) /\
    (cache this !! key = None -> timers this !! key = None).

End Cache.

(** ** Concrete data used by the examples *)

Module Sample.

Import Constants.

Definition revoked_token : RefreshToken.t :=
  RefreshToken.mk 1 "rt-1" 7 1000 (Some true) None None RefreshToken.AsDate.

Definition live_token : RefreshToken.t :=
  RefreshToken.mk 2 "rt-2" 7 9000 (Some false) None None RefreshToken.AsDate.

(** A row that expired at 1000, not revoked, as the development environment
    loads it. *)
Definition expired_loaded_token : RefreshToken.t :=
  RefreshToken.mk 3 "rt-3" 7 1000 (Some false) None None RefreshToken.AsText.

Definition alice : User.t := User.mk 7 "alice@example.com" "user" "active" true.
Definition bob : User.t := User.mk 8 "bob@example.com" "user" "suspended" true.
Definition root : User.t := User.mk 1 "root@example.com" "admin" "active" true.

Definition anonymous_get (url : string) : Request :=
  mkRequest "GET" url url "{}" None ∅ None.

Definition bearer (tok : string) : Request :=
  mkRequest "GET" "/api/v1/orders" "/api/v1/orders" "{}"
            (Some ("Bearer " ++ tok)) ∅ None.

Definition as_user (u : User.t) (ps : gmap string string) : Request :=
  mkRequest "GET" "/api/v1/users" "/api/v1/users" "{}" None ps (Some u).

(** User 7 asking for a resource whose [userId] route parameter is '7'. *)
Definition own_resource : Request := as_user alice {["userId" := "7"]}.

(** A token service that knows two tokens. *)
Definition jwt_verify (tok : string) : Js.attempt (option Z) :=
  if String.eqb tok "alice-token" then Js.Returns (Some 7)
  else if String.eqb tok "bob-token" then Js.Returns (Some 8)
  else Js.Throws "JsonWebTokenError".

Definition findByPk (pk : option Z) : Js.attempt (option User.t) :=
  match pk with
  | Some 7 => Js.Returns (Some alice)
  | Some 8 => Js.Returns (Some bob)
  | _ => Js.Returns None
  end.

(** The value of a non-empty string of decimal digits. *)
Fixpoint digits_value (acc : Z) (s : string) : option Z :=
  match s with
  | EmptyString => Some acc
  | String a s' =>
    let n := Z.of_N (Ascii.N_of_ascii a) in
    if Z.leb 48 n && Z.leb n 57 then digits_value (10 * acc + (n - 48)) s'
    else None
  end.

(** Abstract equality on the route parameters the examples use: a string of
    decimal digits equals the number it denotes.  Every other string is
    answered [false] here; the theorems hold for any answer. *)
Definition loose_eq (p : option string) (n : Z) : bool :=
  match p with
  | Some (String a s') =>
    match digits_value 0 (String a s') with
    | Some v => Z.eqb v n
    | None => false
    end
  | _ => false
  end.

(** Two cached listings. *)
Definition warm_cache : Cache.MemoryCache :=
  Cache.set "api:GET:_products:{}" (Js.JObj [("success", Js.JBool true)]) 1800 0
    (Cache.set "api:GET:_categories:{}" (Js.JObj [("success", Js.JBool true)]) 1800 0
       Cache.empty).

(** A handler answering [201 Created] with an envelope. *)
Definition created_handler : Cache.handler :=
  fun _ _ => (201, Js.JObj [("success", Js.JBool true); ("statusCode", Js.JNum 201)]).

(** A handler answering [200] with the bare number 0, as a counter would. *)
Definition count_handler : Cache.handler := fun _ _ => (200, Js.JNum 0).

(** A handler answering [200] with an envelope that carries the instant. *)
Definition list_handler : Cache.handler :=
  fun _ now => (200, Js.JObj [("success", Js.JBool true); ("timestamp", Js.JNum now)]).



(** A search whose query holds a DEL character (%7F in the URL):
    [JSON.stringify] leaves it as it is, between the quotes of the value. *)
Definition del_in_query : Request :=
  let quote := String (Ascii.ascii_of_nat 34) EmptyString in
  let del := String (Ascii.ascii_of_nat 127) EmptyString in
  mkRequest "GET" "/api/v1/products?q=%7F" "/api/v1/products"
            ("{" ++ quote ++ "q" ++ quote ++ ":" ++ quote ++ del ++ quote ++ "}")
            None ∅ None.

End Sample.

(** * Properties *)

(** ** Refresh tokens *)

Lemma truthy_flag_revoked (b : option bool) :
  Js.truthy_flag b = true <-> b = Some true.
Proof. destruct b as [[|]|]; simpl; split; congruence. Qed.

Lemma where_valid_true (now : Z) (tok : string) (r : RefreshToken.t) :
  RefreshToken.where_valid now tok r = true <->
  RefreshToken.token r = tok /\
  RefreshToken.isRevoked r = Some false /\
  now < RefreshToken.expiresAt r.
Proof.
  unfold RefreshToken.where_valid.
  rewrite !andb_true_iff, String.eqb_eq, Z.ltb_lt.
  destruct (RefreshToken.isRevoked r) as [[|]|]; intuition congruence.
Qed.

Lemma findValidToken_Some (now : Z) (rows : list RefreshToken.t)
    (tok : string) (r : RefreshToken.t) :
  RefreshToken.findValidToken now rows tok = Some r ->
  In r rows /\ RefreshToken.token r = tok /\
  RefreshToken.isRevoked r = Some false /\ now < RefreshToken.expiresAt r.
Proof.
  unfold RefreshToken.findValidToken. intros Hfind.
  apply List.find_some in Hfind as [Hin Hwhere].
  apply where_valid_true in Hwhere. tauto.
Qed.

(** What the two tests do keep.  A revoked token is not valid and never
    found; a token whose [expiresAt] lies in the past is never found, and is
    not valid when the instance holds the date as a [Date]; and whatever row
    [findValidToken] returns is stored, carries the token asked for, has
    [isRevoked = false] and an [expiresAt] strictly later than the current
    instant. *)
Theorem refresh_token_tests_on_dates
    (now : Z) (rows : list RefreshToken.t) (tok : string) (r : RefreshToken.t) :
  (RefreshToken.isRevoked r = Some true -> RefreshToken.isValid now r = false) /\
  (RefreshToken.expiresAt_held r = RefreshToken.AsDate ->
   RefreshToken.expiresAt r < now -> RefreshToken.isValid now r = false) /\
  (RefreshToken.isRevoked r = Some true \/ RefreshToken.expiresAt r < now ->
   RefreshToken.findValidToken now rows tok <> Some r) /\
  (forall r', RefreshToken.findValidToken now rows tok = Some r' ->
     In r' rows /\ RefreshToken.token r' = tok /\
     RefreshToken.isRevoked r' = Some false /\
     now < RefreshToken.expiresAt r').
Proof.
  unfold RefreshToken.isValid, RefreshToken.isExpired.
  split; [|split; [|split]].
  - intros ->. reflexivity.
  - intros -> Hexp. apply Z.ltb_lt in Hexp. rewrite Hexp. apply andb_false_r.
  - intros Hbad Hfind. apply findValidToken_Some in Hfind as (_ & _ & Hrev & Hexp).
    destruct Hbad as [Hbad | Hbad]; [congruence | lia].
  - apply findValidToken_Some.
Qed.

Lemma refresh_token_tests_on_dates_witness :
  (RefreshToken.expiresAt_held Sample.live_token = RefreshToken.AsDate /\
   RefreshToken.expiresAt Sample.live_token < 10000) /\
  RefreshToken.isValid 10000 Sample.live_token = false.
Proof.
  assert (Hheld : RefreshToken.expiresAt_held Sample.live_token = RefreshToken.AsDate)
    by reflexivity.
  assert (Hpast : RefreshToken.expiresAt Sample.live_token < 10000)
    by (simpl; lia).
  split; [split; assumption|].
  exact (proj1 (proj2 (refresh_token_tests_on_dates
                         10000 [Sample.live_token] "rt-2" Sample.live_token))
               Hheld Hpast).
Defined.

(** On an instance that holds [expiresAt] as text, [isValid] never sees the
    expiry: it answers by the revocation flag alone, at every instant. *)
Lemma isValid_on_text_ignores_expiry (now : Z) (r : RefreshToken.t) :
  RefreshToken.expiresAt_held r = RefreshToken.AsText ->
  RefreshToken.isValid now r = negb (Js.truthy_flag (RefreshToken.isRevoked r)).
Proof.
  intros Htext. unfold RefreshToken.isValid, RefreshToken.isExpired.
  rewrite Htext. apply andb_true_r.
Qed.

(** C1.  The code breaks the claim on a row loaded in the development
    environment.  The row expired at 1000 and is not revoked; at 5000
    [findValidToken] does not return it, as the claim says, but [isValid()]
    on the loaded instance returns true. *)
Theorem isValid_accepts_expired_row_loaded_as_text :
  RefreshToken.expiresAt Sample.expired_loaded_token < 5000 /\
  RefreshToken.isRevoked Sample.expired_loaded_token = Some false /\
  RefreshToken.findValidToken 5000 [Sample.expired_loaded_token] "rt-3" = None /\
  RefreshToken.isValid 5000 Sample.expired_loaded_token = true.
Proof.
  split; [simpl; lia | split; [reflexivity | split; reflexivity]].
Qed.

Example findValidToken_returns_live :
  RefreshToken.findValidToken 500 [Sample.revoked_token; Sample.live_token] "rt-2"
  = Some Sample.live_token.
Proof. reflexivity. Qed.

Example isValid_at_expiry_instant :
  RefreshToken.isValid 9000 Sample.live_token = true /\
  RefreshToken.findValidToken 9000 [Sample.live_token] "rt-2" = None.
Proof. split; reflexivity. Qed.

(** ** Authentication *)

Section AuthenticateFacts.

Variable jwt_verify : string -> Js.attempt (option Z).
Variable findByPk : option Z -> Js.attempt (option User.t).

Lemma authenticate_cases (req : Request) :
  (exists u, Auth.session_granted jwt_verify findByPk req u /\
     Auth.authenticate jwt_verify findByPk req = (set_user u req, Next)) \/
  ((forall u, ~ Auth.session_granted jwt_verify findByPk req u) /\
   exists message,
     Auth.authenticate jwt_verify findByPk req = (req, Respond 401 message)).
Proof.
  unfold Auth.authenticate, Auth.session_granted.
  destruct (authorization req) as [authHeader|] eqn:Hauth.
  2:{ right. split; [|eauto]. intros u (h & d & Hh & _). discriminate. }
  destruct (String.eqb authHeader "") eqn:Hempty; cbn [orb negb].
  { right. split; [|eauto]. intros u (h & d & Hh & Hpre & _).
    injection Hh as <-. apply String.eqb_eq in Hempty. subst authHeader.
    discriminate. }
  destruct (Js.startsWith "Bearer " authHeader) eqn:Hpre; cbn [orb negb].
  2:{ right. split; [|eauto]. intros u (h & d & Hh & Hpre' & _).
      injection Hh as <-. congruence. }
  destruct (jwt_verify (Js.substring_from 7 authHeader)) as [d|name] eqn:Hjwt.
  2:{ right. split; [|eauto]. intros u (h & d & Hh & _ & Hjwt' & _).
      injection Hh as <-. congruence. }
  destruct (findByPk d) as [[u|]|name] eqn:Hdb.
  - destruct (String.eqb (User.status u) Constants.USER_STATUS_ACTIVE) eqn:Hst;
      cbn [negb].
    + left. exists u. split; [|reflexivity].
      exists authHeader, d. apply String.eqb_eq in Hst. auto.
    + right. split; [|eauto]. intros u' (h & d' & Hh & _ & Hjwt' & Hdb' & Hst').
      injection Hh as <-. rewrite Hjwt in Hjwt'. injection Hjwt' as <-.
      rewrite Hdb in Hdb'. injection Hdb' as <-.
      apply String.eqb_neq in Hst. contradiction.
  - right. split; [|eauto]. intros u (h & d' & Hh & _ & Hjwt' & Hdb' & _).
    injection Hh as <-. rewrite Hjwt in Hjwt'. injection Hjwt' as <-.
    congruence.
  - right. split; [|eauto]. intros u (h & d' & Hh & _ & Hjwt' & Hdb' & _).
    injection Hh as <-. rewrite Hjwt in Hjwt'. injection Hjwt' as <-.
    congruence.
Qed.

End AuthenticateFacts.

(** C2.  [authenticate] calls [next()] only when the header carries a bearer
    token that verifies, the user the token names exists and that user's
    status is 'active'; then, and only then, [req.user] is set (to that
    user).  In every other case the answer is HTTP 401 and the request
    object is left as it was.  In particular, when the token names a user
    whose status is not 'active', the answer is 401 and [req.user] is not
    attached. *)
Theorem authenticate_session_only_for_active
    (jwt_verify : string -> Js.attempt (option Z))
    (findByPk : option Z -> Js.attempt (option User.t))
    (req req' : Request) (o : outcome) :
  Auth.authenticate jwt_verify findByPk req = (req', o) ->
  (o = Next ->
     exists u, Auth.session_granted jwt_verify findByPk req u /\
               req' = set_user u req /\ user req' = Some u) /\
  (o <> Next -> req' = req /\ exists message, o = Respond 401 message) /\
  (forall authHeader decoded_id u,
     authorization req = Some authHeader ->
     jwt_verify (Js.substring_from 7 authHeader) = Js.Returns decoded_id ->
     findByPk decoded_id = Js.Returns (Some u) ->
     User.status u <> Constants.USER_STATUS_ACTIVE ->
     req' = req /\ user req' = user req /\
     exists message, o = Respond 401 message).
Proof.
  intros Hrun.
  destruct (authenticate_cases jwt_verify findByPk req)
    as [(u & Hgrant & Heq) | (Hnone & message & Heq)];
    rewrite Heq in Hrun; injection Hrun as <- <-.
  - split; [|split].
    + intros _. exists u. auto.
    + intros Hne. exfalso. apply Hne. reflexivity.
    + intros h d u' Hh Hjwt Hdb Hst.
      destruct Hgrant as (h0 & d0 & Hh0 & _ & Hjwt0 & Hdb0 & Hst0).
      rewrite Hh in Hh0. injection Hh0 as <-.
      rewrite Hjwt in Hjwt0. injection Hjwt0 as <-.
      rewrite Hdb in Hdb0. injection Hdb0 as <-. contradiction.
  - split; [|split].
    + discriminate.
    + intros _. eauto.
    + intros. eauto.
Qed.

Lemma authenticate_session_only_for_active_witness :
  Auth.authenticate Sample.jwt_verify Sample.findByPk (Sample.bearer "bob-token")
  = (Sample.bearer "bob-token", Respond 401 "Account is not active") /\
  (Sample.bearer "bob-token" = Sample.bearer "bob-token" /\
   user (Sample.bearer "bob-token") = user (Sample.bearer "bob-token") /\
   exists message, Respond 401 "Account is not active" = Respond 401 message).
Proof.
  assert (Hrun : Auth.authenticate Sample.jwt_verify Sample.findByPk
                   (Sample.bearer "bob-token")
                 = (Sample.bearer "bob-token", Respond 401 "Account is not active"))
    by reflexivity.
  split; [exact Hrun|].
  destruct (authenticate_session_only_for_active _ _ _ _ _ Hrun) as (_ & _ & Hinactive).
  apply (Hinactive ("Bearer bob-token") (Some 8) Sample.bob);
    [reflexivity | reflexivity | reflexivity | discriminate].
Defined.

Example authenticate_active_user :
  Auth.authenticate Sample.jwt_verify Sample.findByPk (Sample.bearer "alice-token")
  = (set_user Sample.alice (Sample.bearer "alice-token"), Next).
Proof. reflexivity. Qed.

(** ** Authorization *)

Lemma includes_role (role : string) (roles : list string) :
  existsb (String.eqb role) roles = true <-> In role roles.
Proof.
  rewrite existsb_exists. split.
  - intros (r & Hin & Heq). apply String.eqb_eq in Heq. congruence.
  - intros Hin. exists role. split; [assumption | apply String.eqb_refl].
Qed.

(** C3.  With a principal on the request, [authorize(...roles)] calls
    [next()] exactly when the principal's role is one of [roles], and answers
    HTTP 403 when it is not; with no principal it answers HTTP 401. *)
Theorem authorize_grants_iff_role_listed (roles : list string) (req : Request) :
  (forall u, user req = Some u ->
     (Auth.authorize roles req = Next <-> In (User.role u) roles) /\
     (~ In (User.role u) roles ->
        Auth.authorize roles req = Respond 403 "Insufficient permissions")) /\
  (user req = None ->
     Auth.authorize roles req = Respond 401 "Authentication required").
Proof.
  unfold Auth.authorize. split.
  - intros u ->.
    destruct (existsb (String.eqb (User.role u)) roles) eqn:Hin; cbn [negb].
    + apply includes_role in Hin. split; [tauto | contradiction].
    + assert (Hnot : ~ In (User.role u) roles).
      { intros Hin'. apply includes_role in Hin'. congruence. }
      split; [split; [discriminate | contradiction] | reflexivity].
  - intros ->. reflexivity.
Qed.

Lemma authorize_grants_iff_role_listed_witness :
  user (Sample.as_user Sample.alice ∅) = Some Sample.alice /\
  ~ In (User.role Sample.alice) ["admin"; "moderator"] /\
  Auth.adminOrModerator (Sample.as_user Sample.alice ∅)
  = Respond 403 "Insufficient permissions".
Proof.
  assert (Hnot : ~ In (User.role Sample.alice) ["admin"; "moderator"]).
  { simpl. intros [H | [H | []]]; discriminate H. }
  split; [reflexivity | split; [exact Hnot|]].
  destruct (authorize_grants_iff_role_listed ["admin"; "moderator"]
              (Sample.as_user Sample.alice ∅)) as [Hsome _].
  destruct (Hsome Sample.alice eq_refl) as [_ Hdeny].
  exact (Hdeny Hnot).
Defined.

Example adminOnly_admits_admin :
  Auth.adminOnly (Sample.as_user Sample.root ∅) = Next.
Proof. reflexivity. Qed.

(** ** Ownership *)

(** C4, as the code has it.  With a principal on the request, [ownerOrAdmin]
    calls [next()] exactly when the principal's role is admin, or the
    parameter name it was configured with is the default 'id' and
    [req.params.id] loosely equals the principal's id; otherwise it answers
    HTTP 403.  With no principal it answers HTTP 401.  For a parameter name
    other than 'id' only an admin passes. *)
Theorem ownerOrAdmin_allows_iff_admin_or_own_id
    (loose_eq : option string -> Z -> bool)
    (resourceIdParam userIdField : string) (req : Request) :
  (forall u, user req = Some u ->
     (Auth.ownerOrAdmin loose_eq resourceIdParam userIdField req = Next <->
        User.role u = Constants.USER_ROLES_ADMIN \/
        (resourceIdParam = "id" /\
         loose_eq (params req !! "id") (User.id u) = true)) /\
     (Auth.ownerOrAdmin loose_eq resourceIdParam userIdField req <> Next ->
        Auth.ownerOrAdmin loose_eq resourceIdParam userIdField req
        = Respond 403 "Access denied")) /\
  (user req = None ->
     Auth.ownerOrAdmin loose_eq resourceIdParam userIdField req
     = Respond 401 "Authentication required").
Proof.
  unfold Auth.ownerOrAdmin. split.
  - intros u ->.
    destruct (String.eqb (User.role u) Constants.USER_ROLES_ADMIN) eqn:Hadmin.
    + apply String.eqb_eq in Hadmin. split; [tauto | intros H; now destruct H].
    + apply String.eqb_neq in Hadmin.
      destruct (String.eqb resourceIdParam "id") eqn:Hparam; cbn [andb].
      * apply String.eqb_eq in Hparam.
        destruct (loose_eq (params req !! "id") (User.id u)) eqn:Hown.
        -- split; [tauto | intros H; now destruct H].
        -- split; [|reflexivity].
           split; [discriminate | intros [H | [_ H]]; [contradiction | discriminate]].
      * apply String.eqb_neq in Hparam.
        split; [|reflexivity].
        split; [discriminate | intros [H | [H _]]; contradiction].
  - intros ->. reflexivity.
Qed.

Lemma ownerOrAdmin_allows_iff_admin_or_own_id_witness :
  user (Sample.as_user Sample.alice {["id" := "7"]}) = Some Sample.alice /\
  Auth.ownerOrAdmin Sample.loose_eq "id" "userId"
    (Sample.as_user Sample.alice {["id" := "7"]}) = Next.
Proof.
  split; [reflexivity|].
  destruct (ownerOrAdmin_allows_iff_admin_or_own_id Sample.loose_eq "id" "userId"
              (Sample.as_user Sample.alice {["id" := "7"]})) as [Hsome _].
  destruct (Hsome Sample.alice eq_refl) as [[_ Hallow] _].
  apply Hallow. right. split; reflexivity.
Defined.

(** C4, as the spec words it, fails: configured with the parameter name
    'userId', the middleware denies the owner.  The principal has id 7, the
    route parameter [userId] is '7', and the answer is HTTP 403. *)
Lemma ownerOrAdmin_other_param_denies_owner :
  user Sample.own_resource = Some Sample.alice /\
  Sample.loose_eq (params Sample.own_resource !! "userId") (User.id Sample.alice)
  = true /\
  Auth.ownerOrAdmin Sample.loose_eq "userId" "userId" Sample.own_resource
  = Respond 403 "Access denied".
Proof. repeat split; reflexivity. Qed.

(** ** Serialization of users *)

(** C10.  The object [toJSON] returns has none of the five hidden names, and
    under every other name it has exactly what the instance stores. *)
Theorem toJSON_hides_secrets_keeps_rest (vals : User.values) (name : string) :
  (In name User.hidden -> User.toJSON vals !! name = None) /\
  (~ In name User.hidden -> User.toJSON vals !! name = vals !! name).
Proof.
  unfold User.toJSON, User.hidden. split.
  - intros Hin. simpl in Hin.
    repeat (rewrite lookup_delete; case_decide; [reflexivity|]).
    destruct Hin as [Hn | [Hn | [Hn | [Hn | [Hn | []]]]]]; congruence.
  - intros Hnot.
    repeat (rewrite lookup_delete_ne; [|intros Heq; apply Hnot; rewrite <- Heq; simpl; auto 10]).
    reflexivity.
Qed.

Lemma toJSON_hides_secrets_keeps_rest_witness :
  In "password" User.hidden /\
  User.toJSON {["password" := Js.JStr "$2a$12$hash"; "email" := Js.JStr "a@b.c"]}
    !! "password" = None.
Proof.
  assert (Hin : In "password" User.hidden) by (left; reflexivity).
  split; [exact Hin|].
  exact (proj1 (toJSON_hides_secrets_keeps_rest _ "password") Hin).
Defined.

(** ** The in-memory cache *)

Lemma delete_all_cache (ks : list string) (this : Cache.MemoryCache) (k : string) :
  Cache.cache (Cache.delete_all ks this) !! k
  = if bool_decide (k ∈ ks) then None else Cache.cache this !! k.
Proof.
  unfold Cache.delete_all. revert this.
  induction ks as [|k0 ks IH]; intros this; cbn [foldl].
  - rewrite bool_decide_eq_false_2; [reflexivity | apply not_elem_of_nil].
  - rewrite IH. cbn [Cache.delete fst Cache.cache Cache.timers].
    destruct (decide (k = k0)) as [-> | Hne].
    + rewrite (bool_decide_eq_true_2 (k0 ∈ k0 :: ks)) by apply list_elem_of_here.
      rewrite lookup_delete_eq. by destruct (bool_decide (k0 ∈ ks)).
    + rewrite lookup_delete_ne by congruence.
      rewrite (bool_decide_ext (k ∈ k0 :: ks) (k ∈ ks))
        by (rewrite elem_of_cons; tauto).
      reflexivity.
Qed.

Lemma delete_all_timers (ks : list string) (this : Cache.MemoryCache) (k : string) :
  Cache.timers (Cache.delete_all ks this) !! k
  = if bool_decide (k ∈ ks) then None else Cache.timers this !! k.
Proof.
  unfold Cache.delete_all. revert this.
  induction ks as [|k0 ks IH]; intros this; cbn [foldl].
  - rewrite bool_decide_eq_false_2; [reflexivity | apply not_elem_of_nil].
  - rewrite IH. cbn [Cache.delete fst Cache.cache Cache.timers].
    destruct (decide (k = k0)) as [-> | Hne].
    + rewrite (bool_decide_eq_true_2 (k0 ∈ k0 :: ks)) by apply list_elem_of_here.
      rewrite lookup_delete_eq. by destruct (bool_decide (k0 ∈ ks)).
    + rewrite lookup_delete_ne by congruence.
      rewrite (bool_decide_ext (k ∈ k0 :: ks) (k ∈ ks))
        by (rewrite elem_of_cons; tauto).
      reflexivity.
Qed.

Lemma elem_of_keys (this : Cache.MemoryCache) (k : string) :
  k ∈ Cache.keys this <-> is_Some (Cache.cache this !! k).
Proof.
  unfold Cache.keys. rewrite list_elem_of_fmap. split.
  - intros ([k' it] & -> & Hin). apply elem_of_map_to_list in Hin. eauto.
  - intros [it Hit]. exists (k, it). split; [reflexivity|].
    apply elem_of_map_to_list. exact Hit.
Qed.

(** C8.  When more time has passed since the entry was stored than its ttl,
    [get] returns [null], not the stored payload, and the entry (with its
    timer) is gone from the cache afterwards. *)
Theorem get_never_serves_expired_entry
    (key : string) (now : Z) (this : Cache.MemoryCache) (it : Cache.item) :
  Cache.cache this !! key = Some it ->
  Cache.ttl it < now - Cache.timestamp it ->
  snd (Cache.get key now this) = Js.JNull /\
  Cache.cache (fst (Cache.get key now this)) !! key = None /\
  Cache.timers (fst (Cache.get key now this)) !! key = None.
Proof.
  intros Hit Hlate. unfold Cache.get. rewrite Hit.
  apply Z.ltb_lt in Hlate. rewrite Hlate. simpl.
  split; [reflexivity | split; apply lookup_delete_eq].
Qed.

Lemma get_never_serves_expired_entry_witness :
  (Cache.cache (Cache.set "GET:/a:{}" (Js.JStr "payload") 300 1000 Cache.empty)
     !! "GET:/a:{}" = Some (Cache.mkItem (Js.JStr "payload") 1000 300000) /\
   Cache.ttl (Cache.mkItem (Js.JStr "payload") 1000 300000)
   < 301001 - Cache.timestamp (Cache.mkItem (Js.JStr "payload") 1000 300000)) /\
  snd (Cache.get "GET:/a:{}" 301001
         (Cache.set "GET:/a:{}" (Js.JStr "payload") 300 1000 Cache.empty))
  = Js.JNull.
Proof.
  assert (Hit : Cache.cache
                  (Cache.set "GET:/a:{}" (Js.JStr "payload") 300 1000 Cache.empty)
                  !! "GET:/a:{}"
                = Some (Cache.mkItem (Js.JStr "payload") 1000 300000))
    by (apply lookup_insert_eq).
  assert (Hlate : Cache.ttl (Cache.mkItem (Js.JStr "payload") 1000 300000)
                  < 301001 - Cache.timestamp (Cache.mkItem (Js.JStr "payload") 1000 300000))
    by (simpl; lia).
  split; [split; [exact Hit | exact Hlate]|].
  exact (proj1 (get_never_serves_expired_entry _ _ _ _ Hit Hlate)).
Defined.

(** What [get] hands out is a stored payload still within its ttl. *)
Lemma get_returns_stored (key : string) (now : Z) (this : Cache.MemoryCache)
    (v : Js.value) :
  snd (Cache.get key now this) = v -> v <> Js.JNull ->
  exists it, Cache.cache this !! key = Some it /\ Cache.data it = v /\
             now - Cache.timestamp it <= Cache.ttl it.
Proof.
  unfold Cache.get. destruct (Cache.cache this !! key) as [it|]; simpl.
  - destruct (Z.ltb (Cache.ttl it) (now - Cache.timestamp it)) eqn:Hlate; simpl.
    + congruence.
    + intros <- _. exists it. apply Z.ltb_ge in Hlate. auto.
  - congruence.
Qed.

(** ** Invalidation *)

Lemma startsWith_prefix (p s : string) :
  Js.startsWith p s = true <-> exists rest, s = p ++ rest.
Proof.
  revert s. induction p as [|a p IH]; intros s; simpl.
  - split; [intros _; exists s; reflexivity | reflexivity].
  - destruct s as [|b s].
    + split; [discriminate | intros [rest H]; discriminate H].
    + rewrite andb_true_iff, Ascii.eqb_eq, IH. split.
      * intros [-> [rest ->]]. exists rest. reflexivity.
      * intros [rest H]. injection H as -> ->. eauto.
Qed.

(** [includes] is the substring test. *)
Lemma includes_substring (s p : string) :
  Js.includes s p = true <-> exists before after, s = before ++ p ++ after.
Proof.
  induction s as [|b s IH]; simpl.
  - rewrite orb_false_r, startsWith_prefix. split.
    + intros [rest H]. exists "", rest. exact H.
    + intros (before & after & H). destruct before as [|c before].
      * exists after. exact H.
      * discriminate H.
  - rewrite orb_true_iff, startsWith_prefix, IH. split.
    + intros [[rest H] | (before & after & H)].
      * exists "", rest. exact H.
      * exists (String b before), after. rewrite H. reflexivity.
    + intros (before & after & H). destruct before as [|c before].
      * left. exists after. exact H.
      * right. change (String b s = String c (before ++ p ++ after)) in H.
        injection H as -> ->. eauto.
Qed.

Lemma elem_of_matching_keys (this : Cache.MemoryCache) (pattern k : string) :
  k ∈ List.filter (fun key => Js.includes key pattern) (Cache.keys this) <->
  Js.includes k pattern = true /\ is_Some (Cache.cache this !! k).
Proof.
  rewrite list_elem_of_In, List.filter_In, <- list_elem_of_In, elem_of_keys.
  tauto.
Qed.

Lemma invalidate_pattern_cache (this : Cache.MemoryCache) (pattern k : string) :
  Cache.cache (Cache.invalidate_pattern this pattern) !! k
  = if Js.includes k pattern then None else Cache.cache this !! k.
Proof.
  unfold Cache.invalidate_pattern. rewrite delete_all_cache.
  case_bool_decide as Hin.
  - apply elem_of_matching_keys in Hin as [-> _]. reflexivity.
  - destruct (Js.includes k pattern) eqn:Hinc; [|reflexivity].
    destruct (Cache.cache this !! k) as [it|] eqn:Hit; [|reflexivity].
    exfalso. apply Hin, elem_of_matching_keys. split; [assumption | eauto].
Qed.

Lemma invalidate_pattern_timers (this : Cache.MemoryCache) (pattern k : string) :
  Js.includes k pattern = false ->
  Cache.timers (Cache.invalidate_pattern this pattern) !! k
  = Cache.timers this !! k.
Proof.
  intros Hinc. unfold Cache.invalidate_pattern. rewrite delete_all_timers.
  rewrite bool_decide_eq_false_2; [reflexivity|].
  intros Hin. apply elem_of_matching_keys in Hin as [Hyes _]. congruence.
Qed.

Lemma invalidate_patterns_cache (patterns : list string)
    (this : Cache.MemoryCache) (k : string) :
  Cache.cache (foldl Cache.invalidate_pattern this patterns) !! k
  = if existsb (Js.includes k) patterns then None else Cache.cache this !! k.
Proof.
  revert this. induction patterns as [|p ps IH]; intros this; cbn [foldl existsb].
  - reflexivity.
  - rewrite IH, invalidate_pattern_cache.
    destruct (Js.includes k p), (existsb (Js.includes k) ps); reflexivity.
Qed.

Lemma invalidate_patterns_timers (patterns : list string)
    (this : Cache.MemoryCache) (k : string) :
  existsb (Js.includes k) patterns = false ->
  Cache.timers (foldl Cache.invalidate_pattern this patterns) !! k
  = Cache.timers this !! k.
Proof.
  revert this. induction patterns as [|p ps IH]; intros this; cbn [foldl existsb].
  - reflexivity.
  - intros Hnone. apply orb_false_iff in Hnone as [Hp Hps].
    rewrite IH by assumption. apply invalidate_pattern_timers. exact Hp.
Qed.

Lemma send_on_invalidate_success (patterns : list string)
    (this : Cache.MemoryCache) (res : Cache.Response) :
  200 <= Cache.statusCode res < 300 ->
  Cache.send_on_invalidate patterns this res
  = foldl Cache.invalidate_pattern this patterns.
Proof.
  intros [Hlo Hhi]. unfold Cache.send_on_invalidate.
  apply Z.leb_le in Hlo. apply Z.ltb_lt in Hhi. rewrite Hlo, Hhi. simpl.
  destruct patterns; reflexivity.
Qed.

(** C9.  When the response wrapped by [invalidateCache(patterns)] has a 2xx
    status, then at the moment the original [send] is called every key that
    contains one of the patterns is absent from the cache, and every key that
    contains none of them has the entry (payload, timestamp, ttl) and the
    timer it had before. *)
Theorem invalidateCache_purges_tagged_keeps_rest
    (patterns : list string) (this : Cache.MemoryCache) (res : Cache.Response) :
  200 <= Cache.statusCode res < 300 ->
  (forall key pattern,
     In pattern patterns -> Js.includes key pattern = true ->
     Cache.cache (Cache.send_on_invalidate patterns this res) !! key = None) /\
  (forall key,
     (forall pattern, In pattern patterns -> Js.includes key pattern = false) ->
     Cache.cache (Cache.send_on_invalidate patterns this res) !! key
     = Cache.cache this !! key /\
     Cache.timers (Cache.send_on_invalidate patterns this res) !! key
     = Cache.timers this !! key).
Proof.
  intros Hok. rewrite (send_on_invalidate_success _ _ _ Hok). split.
  - intros key pattern Hin Hinc. rewrite invalidate_patterns_cache.
    assert (Hex : existsb (Js.includes key) patterns = true)
      by (apply existsb_exists; eauto).
    rewrite Hex. reflexivity.
  - intros key Hnone.
    assert (Hex : existsb (Js.includes key) patterns = false).
    { destruct (existsb (Js.includes key) patterns) eqn:Hex; [|reflexivity].
      apply existsb_exists in Hex as (p & Hin & Hinc).
      rewrite (Hnone p Hin) in Hinc. discriminate. }
    rewrite invalidate_patterns_cache, Hex.
    split; [reflexivity | apply invalidate_patterns_timers; exact Hex].
Qed.

Lemma invalidateCache_purges_tagged_keeps_rest_witness :
  200 <= Cache.statusCode (Cache.fresh_response 201) < 300 /\
  Cache.cache (Cache.send_on_invalidate ["products"] Sample.warm_cache
                 (Cache.fresh_response 201)) !! "api:GET:_products:{}" = None /\
  Cache.cache (Cache.send_on_invalidate ["products"] Sample.warm_cache
                 (Cache.fresh_response 201)) !! "api:GET:_categories:{}"
  = Cache.cache Sample.warm_cache !! "api:GET:_categories:{}".
Proof.
  assert (Hok : 200 <= Cache.statusCode (Cache.fresh_response 201) < 300)
    by (simpl; lia).
  split; [exact Hok|].
  destruct (invalidateCache_purges_tagged_keeps_rest
              ["products"] Sample.warm_cache (Cache.fresh_response 201) Hok)
    as [Hpurge Hkeep].
  split.
  - apply (Hpurge _ "products"); [left; reflexivity | reflexivity].
  - apply Hkeep. intros pattern [<- | []]. reflexivity.
Defined.

(** ** Storing on a miss *)

Lemma serve_on_miss (opts : Cache.Options) (NODE_ENV : option string)
    (h : Cache.handler) (this this1 : Cache.MemoryCache) (req : Request)
    (now sent : Z) (key : string) (status : Z) (payload : Js.value) :
  Cache.cacheMiddleware opts NODE_ENV this req now = (this1, Cache.Miss key) ->
  h req now = (status, payload) ->
  Cache.serve opts NODE_ENV h this req now sent
  = let '(this2, res, error) :=
      Cache.json_on_miss opts key this1 (Cache.fresh_response status) payload sent in
    Cache.mkServed this2 res true error.
Proof. intros Hmiss Hh. unfold Cache.serve. rewrite Hmiss, Hh. reflexivity. Qed.

(** A 200 answer on a miss, by the key: with a key that may be a header
    value both headers are set and the payload is passed on; with any other
    key the entry is stored, [X-Cache] is set, and setting [X-Cache-Key]
    throws. *)
Lemma serve_on_miss_200 (opts : Cache.Options) (NODE_ENV : option string)
    (h : Cache.handler) (this this1 : Cache.MemoryCache) (req : Request)
    (now sent : Z) (key : string) (payload : Js.value) :
  Cache.cacheMiddleware opts NODE_ENV this req now = (this1, Cache.Miss key) ->
  h req now = (200, payload) ->
  Cache.serve opts NODE_ENV h this req now sent
  = if Js.valid_header_value key
    then Cache.mkServed
           (Cache.set key payload (Cache.opt_ttl opts) sent this1)
           (Cache.mkResponse 200 (<["X-Cache-Key" := key]> (<["X-Cache" := "MISS"]> ∅))
                             (Some payload))
           true None
    else Cache.mkServed
           (Cache.set key payload (Cache.opt_ttl opts) sent this1)
           (Cache.mkResponse 200 (<["X-Cache" := "MISS"]> ∅) None)
           true (Some "TypeError").
Proof.
  intros Hmiss Hh. rewrite (serve_on_miss _ _ _ _ _ _ _ _ _ _ _ Hmiss Hh).
  unfold Cache.json_on_miss.
  cbn [Cache.fresh_response Cache.statusCode Z.eqb Pos.eqb].
  change (Cache.res_set "X-Cache" "MISS" (Cache.mkResponse 200 ∅ None))
    with (Js.Returns (Cache.mkResponse 200 (<["X-Cache" := "MISS"]> ∅) None)).
  cbv beta iota. unfold Cache.res_set.
  destruct (Js.valid_header_value key); reflexivity.
Qed.

(** C6, as the code has it.  On a miss the handler runs.  If the status is
    exactly 200, the payload is stored under the request's key with the
    instant of the answer and the configured ttl (in milliseconds), and
    [X-Cache: MISS] is set on the response; when the key may be a header
    value, the payload is then passed on and nothing is thrown.  For every
    other status, the other 2xx codes included, the cache is left as it was,
    the middleware sets no [X-Cache] header, and the payload is passed
    on. *)
Theorem cache_miss_stores_only_status_200
    (opts : Cache.Options) (NODE_ENV : option string) (h : Cache.handler)
    (this this1 : Cache.MemoryCache) (req : Request) (now sent : Z)
    (key : string) (status : Z) (payload : Js.value) :
  Cache.cacheMiddleware opts NODE_ENV this req now = (this1, Cache.Miss key) ->
  h req now = (status, payload) ->
  Cache.handler_ran (Cache.serve opts NODE_ENV h this req now sent) = true /\
  (status = 200 ->
     Cache.cache (Cache.cache_after (Cache.serve opts NODE_ENV h this req now sent))
       !! key
     = Some (Cache.mkItem payload sent (Cache.opt_ttl opts * 1000)) /\
     Cache.headers (Cache.response (Cache.serve opts NODE_ENV h this req now sent))
       !! "X-Cache" = Some "MISS" /\
     (Js.valid_header_value key = true ->
        Cache.body (Cache.response (Cache.serve opts NODE_ENV h this req now sent))
        = Some payload /\
        Cache.thrown (Cache.serve opts NODE_ENV h this req now sent) = None)) /\
  (status <> 200 ->
     Cache.cache_after (Cache.serve opts NODE_ENV h this req now sent) = this1 /\
     Cache.headers (Cache.response (Cache.serve opts NODE_ENV h this req now sent))
       !! "X-Cache" = None /\
     Cache.body (Cache.response (Cache.serve opts NODE_ENV h this req now sent))
     = Some payload /\
     Cache.thrown (Cache.serve opts NODE_ENV h this req now sent) = None).
Proof.
  intros Hmiss Hh. destruct (Z.eq_dec status 200) as [-> | Hother].
  - rewrite (serve_on_miss_200 _ _ _ _ _ _ _ _ _ _ Hmiss Hh).
    destruct (Js.valid_header_value key);
      cbn [Cache.handler_ran Cache.cache_after Cache.response Cache.headers
           Cache.body Cache.thrown Cache.set Cache.cache].
    + split; [reflexivity | split].
      * intros _. split; [apply lookup_insert_eq|]. split.
        -- rewrite lookup_insert_ne by discriminate. apply lookup_insert_eq.
        -- intros _. split; reflexivity.
      * intros Hne. contradiction.
    + split; [reflexivity | split].
      * intros _. split; [apply lookup_insert_eq|]. split.
        -- apply lookup_insert_eq.
        -- intros Hvalid. discriminate Hvalid.
      * intros Hne. contradiction.
  - rewrite (serve_on_miss _ _ _ _ _ _ _ _ _ _ _ Hmiss Hh).
    unfold Cache.json_on_miss. cbn [Cache.fresh_response Cache.statusCode].
    rewrite (proj2 (Z.eqb_neq _ _)) by exact Hother. cbn.
    split; [reflexivity | split].
    + intros Heq. contradiction.
    + intros _. repeat split; reflexivity.
Qed.

Lemma cache_miss_stores_only_status_200_witness :
  (Cache.cacheMiddleware Cache.default_options None Cache.empty
     (Sample.anonymous_get "/api/v1/products") 0
   = (Cache.empty, Cache.Miss "GET:/api/v1/products:{}") /\
   Sample.list_handler (Sample.anonymous_get "/api/v1/products") 0
   = (200, Js.JObj [("success", Js.JBool true); ("timestamp", Js.JNum 0)])) /\
  Cache.headers
    (Cache.response
       (Cache.serve Cache.default_options None Sample.list_handler Cache.empty
          (Sample.anonymous_get "/api/v1/products") 0 5)) !! "X-Cache"
  = Some "MISS".
Proof.
  assert (Hmiss : Cache.cacheMiddleware Cache.default_options None Cache.empty
                    (Sample.anonymous_get "/api/v1/products") 0
                  = (Cache.empty, Cache.Miss "GET:/api/v1/products:{}"))
    by reflexivity.
  assert (Hh : Sample.list_handler (Sample.anonymous_get "/api/v1/products") 0
               = (200, Js.JObj [("success", Js.JBool true); ("timestamp", Js.JNum 0)]))
    by reflexivity.
  split; [split; [exact Hmiss | exact Hh]|].
  destruct (cache_miss_stores_only_status_200 _ _ _ _ _ _ _ 5 _ _ _ Hmiss Hh)
    as (_ & Hstored & _).
  exact (proj1 (proj2 (Hstored eq_refl))).
Defined.

(** C6, as the spec words it, fails: a GET answered [201] on a miss is a 2xx
    response, yet nothing is stored under its key and no MISS header is
    set. *)
Lemma cache_miss_status_201_not_stored :
  Cache.cacheMiddleware Cache.default_options None Cache.empty
    (Sample.anonymous_get "/api/v1/products") 0
  = (Cache.empty, Cache.Miss "GET:/api/v1/products:{}") /\
  Cache.statusCode
    (Cache.response
       (Cache.serve Cache.default_options None Sample.created_handler Cache.empty
          (Sample.anonymous_get "/api/v1/products") 0 5)) = 201 /\
  Cache.cache
    (Cache.cache_after
       (Cache.serve Cache.default_options None Sample.created_handler Cache.empty
          (Sample.anonymous_get "/api/v1/products") 0 5))
    !! "GET:/api/v1/products:{}" = None /\
  Cache.headers
    (Cache.response
       (Cache.serve Cache.default_options None Sample.created_handler Cache.empty
          (Sample.anonymous_get "/api/v1/products") 0 5)) !! "X-Cache" = None.
Proof. repeat split; vm_compute; reflexivity. Qed.

(** ** Timers and repeated requests *)

Lemma elem_of_due_keys (now : Z) (tm : gmap string Z) (k : string) :
  k ∈ (map_to_list (filter (fun kd : string * Z => snd kd <= now) tm)).*1 <->
  exists due, tm !! k = Some due /\ due <= now.
Proof.
  rewrite list_elem_of_fmap. split.
  - intros ([k' due] & -> & Hin). apply elem_of_map_to_list in Hin.
    apply map_lookup_filter_Some in Hin. simpl in *. eauto.
  - intros (due & Hk & Hdue). exists (k, due). split; [reflexivity|].
    apply elem_of_map_to_list, map_lookup_filter_Some. auto.
Qed.

(** A timer that is not yet due leaves its entry alone. *)
Lemma fire_timers_not_due (now : Z) (this : Cache.MemoryCache)
    (key : string) (due : Z) :
  Cache.timers this !! key = Some due -> now < due ->
  Cache.cache (Cache.fire_timers now this) !! key = Cache.cache this !! key /\
  Cache.timers (Cache.fire_timers now this) !! key = Some due.
Proof.
  intros Htimer Hearly. unfold Cache.fire_timers.
  rewrite delete_all_cache, delete_all_timers.
  rewrite bool_decide_eq_false_2; [auto|].
  intros Hin. apply elem_of_due_keys in Hin as (due' & Hk & Hdue).
  rewrite Htimer in Hk. injection Hk as <-. lia.
Qed.

Lemma event_loop_not_due (ticks : list Z) (this : Cache.MemoryCache)
    (key : string) (due : Z) :
  Cache.timers this !! key = Some due ->
  Forall (fun tick => tick < due) ticks ->
  Cache.cache (Cache.event_loop ticks this) !! key = Cache.cache this !! key /\
  Cache.timers (Cache.event_loop ticks this) !! key = Some due.
Proof.
  unfold Cache.event_loop. revert this.
  induction ticks as [|tick ticks IH]; intros this Htimer Hall; cbn [foldl].
  - auto.
  - apply Forall_cons in Hall as [Htick Hall].
    destruct (fire_timers_not_due tick this key due Htimer Htick) as [Hc Ht].
    destruct (IH _ Ht Hall) as [Hc' Ht']. rewrite Hc', Ht'. auto.
Qed.

(** A miss tells that the middleware was not bypassed for this request, and
    so how it treats the same request against any other cache state. *)
Lemma cacheMiddleware_miss_again (opts : Cache.Options)
    (NODE_ENV : option string) (this this1 : Cache.MemoryCache)
    (req : Request) (now : Z) (key : string) :
  Cache.cacheMiddleware opts NODE_ENV this req now = (this1, Cache.Miss key) ->
  key = Cache.cache_key opts req /\
  forall that later,
    Cache.cacheMiddleware opts NODE_ENV that req later
    = (fst (Cache.get key later that),
       if Js.truthy (snd (Cache.get key later that))
       then Cache.Hit key (snd (Cache.get key later that))
       else Cache.Miss key).
Proof.
  unfold Cache.cacheMiddleware.
  destruct (Cache.skipCache opts || bool_decide (NODE_ENV = Some "test"));
    [discriminate|].
  destruct (bool_decide (is_Some (user req)) && negb (Cache.cacheAuthenticated opts));
    [discriminate|].
  destruct (match Cache.condition opts with
            | Some cond => negb (cond req)
            | None => false
            end); [discriminate|].
  destruct (Cache.get (Cache.cache_key opts req) now this) as [c v].
  destruct (Js.truthy v); [discriminate|].
  intros Heq. injection Heq as _ <-. split; [reflexivity|].
  intros that later.
  destruct (Cache.get (Cache.cache_key opts req) later that) as [c' v'].
  simpl. destruct (Js.truthy v'); reflexivity.
Qed.

Lemma timer_due_in_range (now delay : Z) :
  1 <= delay <= Cache.TIMEOUT_MAX -> Cache.timer_due now delay = now + delay.
Proof.
  intros [Hlo Hhi]. unfold Cache.timer_due.
  apply Z.leb_le in Hlo. apply Z.leb_le in Hhi. rewrite Hlo, Hhi. reflexivity.
Qed.

(** A hit, by the key: with a key that may be a header value both headers
    are set and the stored payload is passed on; with any other key setting
    [X-Cache-Key] throws and nothing is sent. *)
Lemma serve_on_hit (opts : Cache.Options) (NODE_ENV : option string)
    (h : Cache.handler) (this this1 : Cache.MemoryCache) (req : Request)
    (now sent : Z) (key : string) (cachedResponse : Js.value) :
  Cache.cacheMiddleware opts NODE_ENV this req now
  = (this1, Cache.Hit key cachedResponse) ->
  Cache.serve opts NODE_ENV h this req now sent
  = if Js.valid_header_value key
    then Cache.mkServed this1
           (Cache.mkResponse 200 (<["X-Cache-Key" := key]> (<["X-Cache" := "HIT"]> ∅))
                             (Some cachedResponse))
           false None
    else Cache.mkServed this1
           (Cache.mkResponse 200 (<["X-Cache" := "HIT"]> ∅) None)
           false (Some "TypeError").
Proof.
  intros Hhit. unfold Cache.serve. rewrite Hhit.
  change (Cache.res_set "X-Cache" "HIT" (Cache.fresh_response 200))
    with (Js.Returns (Cache.mkResponse 200 (<["X-Cache" := "HIT"]> ∅) None)).
  cbv beta iota. unfold Cache.res_set.
  destruct (Js.valid_header_value key); reflexivity.
Qed.

(** The run the cache is there for.  Take a request the cache middleware
    does not bypass and that finds no usable entry, whose handler answers
    with status 200 and a truthy payload, under a key that may be a header
    value.  Let the same request be sent again less than ttl seconds after
    that answer, the ttl in milliseconds being within the range of a Node
    timer, and let the event loop run its due timers at any instants in
    between.  Then the first response is marked MISS, the second is marked
    HIT, both carry the same payload, and the second request does not run
    the handler. *)
Theorem identical_gets_within_ttl_miss_then_hit
    (opts : Cache.Options) (NODE_ENV : option string) (h : Cache.handler)
    (this this1 : Cache.MemoryCache) (req : Request)
    (now1 sent1 now2 sent2 : Z) (ticks : list Z)
    (key : string) (payload : Js.value) :
  Cache.cacheMiddleware opts NODE_ENV this req now1 = (this1, Cache.Miss key) ->
  h req now1 = (200, payload) ->
  Js.truthy payload = true ->
  Js.valid_header_value key = true ->
  Cache.opt_ttl opts * 1000 <= Cache.TIMEOUT_MAX ->
  sent1 <= now2 < sent1 + Cache.opt_ttl opts * 1000 ->
  Forall (fun tick => tick <= now2) ticks ->
  Cache.headers
    (Cache.response (Cache.serve opts NODE_ENV h this req now1 sent1))
    !! "X-Cache" = Some "MISS" /\
  Cache.headers
    (Cache.response
       (Cache.serve opts NODE_ENV h
          (Cache.event_loop ticks
             (Cache.cache_after (Cache.serve opts NODE_ENV h this req now1 sent1)))
          req now2 sent2))
    !! "X-Cache" = Some "HIT" /\
  Cache.body (Cache.response (Cache.serve opts NODE_ENV h this req now1 sent1))
  = Some payload /\
  Cache.body
    (Cache.response
       (Cache.serve opts NODE_ENV h
          (Cache.event_loop ticks
             (Cache.cache_after (Cache.serve opts NODE_ENV h this req now1 sent1)))
          req now2 sent2))
  = Some payload /\
  Cache.handler_ran
    (Cache.serve opts NODE_ENV h
       (Cache.event_loop ticks
          (Cache.cache_after (Cache.serve opts NODE_ENV h this req now1 sent1)))
       req now2 sent2)
  = false.
Proof.
  intros Hmiss Hh Htruthy Hvalid Hmax Hwithin Hticks.
  rewrite (serve_on_miss_200 _ _ _ _ _ _ now1 sent1 _ _ Hmiss Hh), Hvalid.
  cbn [Cache.response Cache.cache_after Cache.headers Cache.body].
  split.
  { rewrite lookup_insert_ne by discriminate. apply lookup_insert_eq. }
  set (first := Cache.set key payload (Cache.opt_ttl opts) sent1 this1).
  assert (Hitem : Cache.cache first !! key
                  = Some (Cache.mkItem payload sent1 (Cache.opt_ttl opts * 1000)))
    by apply lookup_insert_eq.
  assert (Htimer : Cache.timers first !! key
                   = Some (sent1 + Cache.opt_ttl opts * 1000)).
  { subst first. cbn [Cache.set Cache.timers].
    rewrite lookup_insert_eq, timer_due_in_range by lia. reflexivity. }
  assert (Hearly : Forall (fun tick => tick < sent1 + Cache.opt_ttl opts * 1000) ticks).
  { eapply Forall_impl; [exact Hticks|]. simpl. intros tick Htick. lia. }
  destruct (event_loop_not_due ticks first key _ Htimer Hearly) as [Hkept _].
  rewrite Hitem in Hkept.
  set (idle := Cache.event_loop ticks first) in *.
  destruct (cacheMiddleware_miss_again _ _ _ _ _ _ _ Hmiss) as [_ Hagain].
  assert (Hget : Cache.get key now2 idle = (idle, payload)).
  { unfold Cache.get. rewrite Hkept. cbn [Cache.ttl Cache.timestamp Cache.data].
    rewrite (proj2 (Z.ltb_ge _ _)) by lia. reflexivity. }
  assert (Hhit : Cache.cacheMiddleware opts NODE_ENV idle req now2
                 = (idle, Cache.Hit key payload)).
  { rewrite Hagain, Hget. cbn [fst snd]. rewrite Htruthy. reflexivity. }
  rewrite (serve_on_hit _ _ _ _ _ _ _ sent2 _ _ Hhit), Hvalid.
  cbn [Cache.response Cache.headers Cache.body Cache.handler_ran].
  rewrite lookup_insert_ne by discriminate. rewrite lookup_insert_eq.
  auto.
Qed.

Lemma identical_gets_within_ttl_miss_then_hit_witness :
  (Cache.cacheMiddleware Cache.default_options None Cache.empty
     (Sample.anonymous_get "/api/v1/products") 0
   = (Cache.empty, Cache.Miss "GET:/api/v1/products:{}") /\
   Sample.list_handler (Sample.anonymous_get "/api/v1/products") 0
   = (200, Js.JObj [("success", Js.JBool true); ("timestamp", Js.JNum 0)]) /\
   Js.valid_header_value "GET:/api/v1/products:{}" = true /\
   5 <= 1000 < 5 + Cache.opt_ttl Cache.default_options * 1000 /\
   Forall (fun tick => tick <= 1000) [500; 1000]) /\
  Cache.handler_ran
    (Cache.serve Cache.default_options None Sample.list_handler
       (Cache.event_loop [500; 1000]
          (Cache.cache_after
             (Cache.serve Cache.default_options None Sample.list_handler
                Cache.empty (Sample.anonymous_get "/api/v1/products") 0 5)))
       (Sample.anonymous_get "/api/v1/products") 1000 1005)
  = false.
Proof.
  assert (Hmiss : Cache.cacheMiddleware Cache.default_options None Cache.empty
                    (Sample.anonymous_get "/api/v1/products") 0
                  = (Cache.empty, Cache.Miss "GET:/api/v1/products:{}"))
    by reflexivity.
  assert (Hh : Sample.list_handler (Sample.anonymous_get "/api/v1/products") 0
               = (200, Js.JObj [("success", Js.JBool true); ("timestamp", Js.JNum 0)]))
    by reflexivity.
  assert (Hvalid : Js.valid_header_value "GET:/api/v1/products:{}" = true)
    by reflexivity.
  assert (Hwithin : 5 <= 1000 < 5 + Cache.opt_ttl Cache.default_options * 1000)
    by (unfold Cache.default_options, Constants.CACHE_TTL_MEDIUM; simpl; lia).
  assert (Hticks : Forall (fun tick => tick <= 1000) [500; 1000])
    by (repeat constructor; lia).
  split; [auto 6|].
  assert (Hmax : Cache.opt_ttl Cache.default_options * 1000 <= Cache.TIMEOUT_MAX)
    by (vm_compute; discriminate).
  destruct (identical_gets_within_ttl_miss_then_hit
              Cache.default_options None Sample.list_handler Cache.empty Cache.empty
              (Sample.anonymous_get "/api/v1/products") 0 5 1000 1005 [500; 1000]
              _ _ Hmiss Hh eq_refl Hvalid Hmax Hwithin Hticks)
    as (_ & _ & _ & _ & Hskipped).
  exact Hskipped.
Defined.

(** C7.  The code breaks the claim on a handler that answers [200] with the
    bare number 0.  The answer is stored, and an identical request one
    second later, well within the 1800 s ttl, is not served from the cache:
    the stored 0 is taken for a miss, the handler runs again and the
    response is marked MISS. *)
Theorem identical_gets_falsy_payload_miss_twice :
  Cache.cache
    (Cache.cache_after
       (Cache.serve Cache.default_options None Sample.count_handler Cache.empty
          (Sample.anonymous_get "/api/v1/products/count") 0 5))
    !! "GET:/api/v1/products/count:{}"
  = Some (Cache.mkItem (Js.JNum 0) 5 1800000) /\
  Cache.handler_ran
    (Cache.serve Cache.default_options None Sample.count_handler
       (Cache.cache_after
          (Cache.serve Cache.default_options None Sample.count_handler Cache.empty
             (Sample.anonymous_get "/api/v1/products/count") 0 5))
       (Sample.anonymous_get "/api/v1/products/count") 1000 1005)
  = true /\
  Cache.headers
    (Cache.response
       (Cache.serve Cache.default_options None Sample.count_handler
          (Cache.cache_after
             (Cache.serve Cache.default_options None Sample.count_handler Cache.empty
                (Sample.anonymous_get "/api/v1/products/count") 0 5))
          (Sample.anonymous_get "/api/v1/products/count") 1000 1005))
    !! "X-Cache" = Some "MISS".
Proof. repeat split; vm_compute; reflexivity. Qed.

(** A second way the same run fails: a key that may not be a header value,
    here through a DEL character in the query.  The first answer is stored
    and then [res.set('X-Cache-Key', ...)] throws; the second request finds
    the entry and throws at the same call, before anything is sent. *)
Example identical_gets_invalid_key_throw_twice :
  Cache.thrown
    (Cache.serve Cache.default_options None Sample.list_handler Cache.empty
       Sample.del_in_query 0 5) = Some "TypeError" /\
  Cache.body
    (Cache.response
       (Cache.serve Cache.default_options None Sample.list_handler Cache.empty
          Sample.del_in_query 0 5)) = None /\
  is_Some
    (Cache.cache
       (Cache.cache_after
          (Cache.serve Cache.default_options None Sample.list_handler Cache.empty
             Sample.del_in_query 0 5))
       !! Cache.cache_key Cache.default_options Sample.del_in_query) /\
  Cache.thrown
    (Cache.serve Cache.default_options None Sample.list_handler
       (Cache.cache_after
          (Cache.serve Cache.default_options None Sample.list_handler Cache.empty
             Sample.del_in_query 0 5))
       Sample.del_in_query 1000 1005) = Some "TypeError".
Proof.
  repeat split; try (vm_compute; reflexivity).
  vm_compute. eexists. reflexivity.
Qed.

(** A ttl beyond the range of a timer: the timeout is due one millisecond
    after the set, and the entry is gone at the next turn of the event loop. *)
Example long_ttl_entry_removed_by_timer :
  Cache.cache
    (Cache.event_loop [10]
       (Cache.set "GET:/a:{}" (Js.JStr "payload") 2592000 0 Cache.empty))
    !! "GET:/a:{}" = None.
Proof. vm_compute. reflexivity. Qed.

(** ** Per-user rate limit *)

Section RateLimitFacts.

Variables (maxRequests windowMs : Z) (req : Request) (u : User.t).
Hypothesis Huser : user req = Some u.

Local Abbreviation live store now := (Auth.live windowMs store (User.id u) now).

Lemma userRateLimit_under_limit (store : Auth.history) (now : Z) :
  Z.of_nat (length (live store now)) < maxRequests ->
  Auth.userRateLimit maxRequests windowMs store req now
  = (<[User.id u := (live store now ++ [now])%list]> store, Next).
Proof.
  intros Hroom. unfold Auth.userRateLimit. rewrite Huser. fold (Auth.live windowMs store (User.id u) now).
  rewrite (proj2 (Z.leb_gt _ _)) by exact Hroom. reflexivity.
Qed.

Lemma userRateLimit_at_limit (store : Auth.history) (now : Z) :
  maxRequests <= Z.of_nat (length (live store now)) ->
  Auth.userRateLimit maxRequests windowMs store req now
  = (<[User.id u := live store now]> store, Respond 429 "Rate limit exceeded").
Proof.
  intros Hfull. unfold Auth.userRateLimit. rewrite Huser. fold (Auth.live windowMs store (User.id u) now).
  rewrite (proj2 (Z.leb_le _ _)) by exact Hfull. reflexivity.
Qed.

Lemma filter_keeps_all (f : Z -> bool) (l : list Z) :
  Forall (fun t => f t = true) l -> List.filter f l = l.
Proof.
  induction 1 as [|t l Ht _ IH]; simpl; [reflexivity|]. rewrite Ht, IH. reflexivity.
Qed.

Lemma filter_drops_all (f : Z -> bool) (l : list Z) :
  Forall (fun t => f t = false) l -> List.filter f l = [].
Proof.
  induction 1 as [|t l Ht _ IH]; simpl; [reflexivity|]. rewrite Ht, IH. reflexivity.
Qed.

(** Inside the window opened at [t1] nothing recorded since [t1] is dropped. *)
Lemma live_inside_window (store : Auth.history) (log : list Z) (t1 now : Z) :
  store !! User.id u = Some log ->
  Forall (fun t => t1 <= t) log ->
  now < t1 + windowMs ->
  live store now = log.
Proof.
  intros Hlog Hsince Hnow. unfold Auth.live. rewrite Hlog. simpl.
  apply filter_keeps_all. eapply Forall_impl; [exact Hsince|].
  simpl. intros t Ht. apply Z.ltb_lt. lia.
Qed.

Lemma run_requests_app (store : Auth.history) (ts1 ts2 : list Z) :
  Auth.run_requests maxRequests windowMs store req (ts1 ++ ts2)
  = let '(store1, os1) := Auth.run_requests maxRequests windowMs store req ts1 in
    let '(store2, os2) := Auth.run_requests maxRequests windowMs store1 req ts2 in
    (store2, (os1 ++ os2)%list).
Proof.
  revert store. induction ts1 as [|t ts1 IH]; intros store; simpl.
  - destruct (Auth.run_requests maxRequests windowMs store req ts2). reflexivity.
  - destruct (Auth.userRateLimit maxRequests windowMs store req t) as [store1 o].
    rewrite IH.
    destruct (Auth.run_requests maxRequests windowMs store1 req ts1) as [s1 os1].
    destruct (Auth.run_requests maxRequests windowMs s1 req ts2) as [s2 os2].
    reflexivity.
Qed.

(** While there is room, every request in the window passes and is logged. *)
Lemma run_requests_room (t1 : Z) (ts : list Z) :
  forall (store : Auth.history) (log : list Z),
    store !! User.id u = Some log ->
    Forall (fun t => t1 <= t) log ->
    Forall (fun t => t1 <= t < t1 + windowMs) ts ->
    Z.of_nat (length log + length ts) <= maxRequests ->
    exists store',
      Auth.run_requests maxRequests windowMs store req ts
      = (store', List.repeat Next (length ts)) /\
      store' !! User.id u = Some (log ++ ts)%list.
Proof.
  induction ts as [|t ts IH]; intros store log Hlog Hsince Hin Hroom; simpl.
  - exists store. rewrite app_nil_r. auto.
  - apply Forall_cons in Hin as [Ht Hin].
    assert (Hlive : live store t = log)
      by (eapply live_inside_window; eauto; lia).
    rewrite userRateLimit_under_limit by (rewrite Hlive; simpl in Hroom; lia).
    rewrite Hlive.
    destruct (IH (<[User.id u := (log ++ [t])%list]> store) (log ++ [t])%list)
      as (store' & Hrun & Hlog').
    + apply lookup_insert_eq.
    + apply Forall_app. split; [assumption|]. repeat constructor. lia.
    + assumption.
    + rewrite length_app. simpl in *. lia.
    + rewrite Hrun. exists store'. split; [reflexivity|].
      rewrite Hlog', <- app_assoc. reflexivity.
Qed.

(** Once the window is full, every further request in it is rejected and the
    log stays as it is. *)
Lemma run_requests_full (t1 : Z) (ts : list Z) :
  forall (store : Auth.history) (log : list Z),
    store !! User.id u = Some log ->
    Forall (fun t => t1 <= t) log ->
    Forall (fun t => t1 <= t < t1 + windowMs) ts ->
    maxRequests <= Z.of_nat (length log) ->
    exists store',
      Auth.run_requests maxRequests windowMs store req ts
      = (store', List.repeat (Respond 429 "Rate limit exceeded") (length ts)) /\
      store' !! User.id u = Some log.
Proof.
  induction ts as [|t ts IH]; intros store log Hlog Hsince Hin Hfull; simpl.
  - exists store. auto.
  - apply Forall_cons in Hin as [Ht Hin].
    assert (Hlive : live store t = log)
      by (eapply live_inside_window; eauto; lia).
    rewrite userRateLimit_at_limit by (rewrite Hlive; lia).
    rewrite Hlive.
    destruct (IH (<[User.id u := log]> store) log) as (store' & Hrun & Hlog');
      [apply lookup_insert_eq | assumption | assumption | assumption |].
    rewrite Hrun. exists store'. auto.
Qed.

End RateLimitFacts.

(** A user with no request still inside the window sends a request at
    [t1]; this opens a window of [windowMs] milliseconds.  The first
    [maxRequests] requests of that window ([t1] and those at [inside]) pass
    to the next stage; every further request arriving within the window (at
    [over]), the one with ordinal [maxRequests + 1] first of all, is answered
    HTTP 429 and does not reach the next stage; and the first request
    arriving once the window has elapsed (at [after]) passes again. *)
Theorem userRateLimit_window_then_reject_then_pass
    (maxRequests windowMs : Z) (store : Auth.history) (req : Request)
    (u : User.t) (t1 : Z) (inside over : list Z) (after : Z) :
  user req = Some u ->
  Forall (fun t => t <= t1 - windowMs) (default [] (store !! User.id u)) ->
  Z.of_nat (length (t1 :: inside)) = maxRequests ->
  Forall (fun t => t1 <= t < t1 + windowMs) (inside ++ over) ->
  t1 + windowMs <= after ->
  snd (Auth.run_requests maxRequests windowMs store req
         (t1 :: inside ++ over ++ [after]))
  = (List.repeat Next (length (t1 :: inside))
     ++ List.repeat (Respond 429 "Rate limit exceeded") (length over)
     ++ [Next])%list.
Proof.
  intros Huser Hidle Hmax Hwindow Hafter.
  apply Forall_app in Hwindow as [Hinside Hover].
  cbn [Auth.run_requests length List.repeat].
  (* the request that opens the window *)
  assert (Hlive1 : Auth.live windowMs store (User.id u) t1 = []).
  { unfold Auth.live. apply filter_drops_all.
    eapply Forall_impl; [exact Hidle|]. simpl. intros t Ht. apply Z.ltb_ge. lia. }
  rewrite (userRateLimit_under_limit maxRequests windowMs req u Huser)
    by (rewrite Hlive1; simpl in *; lia).
  rewrite Hlive1. cbn [app].
  set (store1 := <[User.id u := [t1]]> store).
  (* the rest of the first maxRequests *)
  destruct (run_requests_room maxRequests windowMs req u Huser t1 inside store1 [t1])
    as (store2 & Hrun2 & Hlog2).
  { apply lookup_insert_eq. }
  { repeat constructor. lia. }
  { exact Hinside. }
  { simpl in *. lia. }
  (* those beyond the maximum *)
  destruct (run_requests_full maxRequests windowMs req u Huser t1 over store2
              ([t1] ++ inside)%list) as (store3 & Hrun3 & Hlog3).
  { exact Hlog2. }
  { constructor; [lia|]. eapply Forall_impl; [exact Hinside|]. simpl. lia. }
  { exact Hover. }
  { simpl in *. lia. }
  (* the first request after the window *)
  assert (Hrun4 : Auth.userRateLimit maxRequests windowMs store3 req after
                  = (<[User.id u :=
                        (Auth.live windowMs store3 (User.id u) after ++ [after])%list]>
                       store3, Next)).
  { apply (userRateLimit_under_limit maxRequests windowMs req u Huser).
    unfold Auth.live. rewrite Hlog3.
    change (default [] (Some ([t1] ++ inside)%list)) with (t1 :: inside).
    cbn [List.filter].
    rewrite (proj2 (Z.ltb_ge _ _)) by lia.
    pose proof (List.filter_length_le
                  (fun timestamp => Z.ltb (after - windowMs) timestamp) inside).
    simpl in Hmax. lia. }
  rewrite run_requests_app, Hrun2, run_requests_app, Hrun3.
  cbn [Auth.run_requests]. rewrite Hrun4. reflexivity.
Qed.

Lemma userRateLimit_window_then_reject_then_pass_witness :
  (user (Sample.as_user Sample.alice ∅) = Some Sample.alice /\
   Forall (fun t => t <= 1000 - 10)
          (default [] ((∅ : Auth.history) !! User.id Sample.alice)) /\
   Z.of_nat (length [1000; 1004]) = 2 /\
   Forall (fun t => 1000 <= t < 1000 + 10) ([1004] ++ [1005; 1009]) /\
   1000 + 10 <= 1010) /\
  snd (Auth.run_requests 2 10 ∅ (Sample.as_user Sample.alice ∅)
         [1000; 1004; 1005; 1009; 1010])
  = [Next; Next; Respond 429 "Rate limit exceeded";
     Respond 429 "Rate limit exceeded"; Next].
Proof.
  assert (Huser : user (Sample.as_user Sample.alice ∅) = Some Sample.alice)
    by reflexivity.
  assert (Hidle : Forall (fun t => t <= 1000 - 10)
                    (default [] ((∅ : Auth.history) !! User.id Sample.alice)))
    by constructor.
  assert (Hmax : Z.of_nat (length [1000; 1004]) = 2) by reflexivity.
  assert (Hwindow : Forall (fun t => 1000 <= t < 1000 + 10) ([1004] ++ [1005; 1009]))
    by (repeat constructor; lia).
  assert (Hafter : 1000 + 10 <= 1010) by lia.
  split; [auto 6|].
  exact (userRateLimit_window_then_reject_then_pass
           2 10 ∅ (Sample.as_user Sample.alice ∅) Sample.alice
           1000 [1004] [1005; 1009] 1010 Huser Hidle Hmax Hwindow Hafter).
Defined.




(** A request without a principal is passed on and not counted. *)
Example userRateLimit_anonymous (store : Auth.history) (now : Z) :
  Auth.userRateLimit 2 10 store (Sample.anonymous_get "/health") now = (store, Next).
Proof. reflexivity. Qed.

(** * Further properties of the code *)

(** ** Optional authentication and the guards behind [authenticate] *)

(** [optionalAuth] always calls [next()], and it leaves the request exactly
    as [authenticate] leaves it: [req.user] is set for a bearer token that
    verifies and names an active user, and the request is untouched in every
    case where [authenticate] would answer 401. *)
Theorem optionalAuth_as_authenticate_without_rejection
    (jwt_verify : string -> Js.attempt (option Z))
    (findByPk : option Z -> Js.attempt (option User.t)) (req : Request) :
  Auth.optionalAuth jwt_verify findByPk req
  = (fst (Auth.authenticate jwt_verify findByPk req), Next).
Proof.
  unfold Auth.optionalAuth, Auth.authenticate.
  destruct (authorization req) as [authHeader|]; [|reflexivity].
  destruct (String.eqb authHeader "" || negb (Js.startsWith "Bearer " authHeader));
    [reflexivity|].
  destruct (jwt_verify (Js.substring_from 7 authHeader)) as [d|name];
    [|reflexivity].
  destruct (findByPk d) as [[u|]|name]; try reflexivity.
  destruct (String.eqb (User.status u) Constants.USER_STATUS_ACTIVE); reflexivity.
Qed.

(** The guard [authenticate, adminOnly] of the admin routes lets a request
    through exactly when its bearer token verifies and names an active user
    whose role is admin, and then [req.user] is that user.  A valid session
    of any other role is answered 403, everything else 401. *)
Theorem admin_guard_passes_iff_active_admin
    (jwt_verify : string -> Js.attempt (option Z))
    (findByPk : option Z -> Js.attempt (option User.t))
    (req req' : Request) (o : outcome) :
  Auth.admin_guard jwt_verify findByPk req = (req', o) ->
  (o = Next <->
   exists u, Auth.session_granted jwt_verify findByPk req u /\
             User.role u = Constants.USER_ROLES_ADMIN /\ user req' = Some u) /\
  (o <> Next ->
   (o = Respond 403 "Insufficient permissions" /\
    exists u, Auth.session_granted jwt_verify findByPk req u /\
              User.role u <> Constants.USER_ROLES_ADMIN) \/
   ((exists message, o = Respond 401 message) /\
    forall u, ~ Auth.session_granted jwt_verify findByPk req u)).
Proof.
  unfold Auth.admin_guard. intros Hrun.
  destruct (authenticate_cases jwt_verify findByPk req)
    as [(u & Hgrant & Heq) | (Hnone & message & Heq)]; rewrite Heq in Hrun.
  - injection Hrun as <- <-.
    unfold Auth.adminOnly, Auth.authorize. cbn [user set_user existsb].
    destruct (String.eqb (User.role u) Constants.USER_ROLES_ADMIN) eqn:Hrole;
      cbn [orb negb].
    + apply String.eqb_eq in Hrole. split.
      * split; [intros _; eauto | reflexivity].
      * intros Hne. exfalso. apply Hne. reflexivity.
    + apply String.eqb_neq in Hrole. split.
      * split; [discriminate|].
        intros (u' & Hgrant' & Hadmin & Hu). injection Hu as <-. contradiction.
      * intros _. left. eauto.
  - injection Hrun as <- <-. split.
    + split; [discriminate|]. intros (u & Hgrant & _). destruct (Hnone u Hgrant).
    + intros _. right. eauto.
Qed.

Lemma admin_guard_passes_iff_active_admin_witness :
  Auth.admin_guard Sample.jwt_verify Sample.findByPk (Sample.bearer "alice-token")
  = (set_user Sample.alice (Sample.bearer "alice-token"),
     Respond 403 "Insufficient permissions") /\
  ~ (exists u,
       Auth.session_granted Sample.jwt_verify Sample.findByPk
         (Sample.bearer "alice-token") u /\
       User.role u = Constants.USER_ROLES_ADMIN /\
       user (set_user Sample.alice (Sample.bearer "alice-token")) = Some u).
Proof.
  assert (Hrun : Auth.admin_guard Sample.jwt_verify Sample.findByPk
                   (Sample.bearer "alice-token")
                 = (set_user Sample.alice (Sample.bearer "alice-token"),
                    Respond 403 "Insufficient permissions")) by reflexivity.
  split; [exact Hrun|].
  destruct (admin_guard_passes_iff_active_admin _ _ _ _ _ Hrun) as [[_ Hback] _].
  intros Hadmin. discriminate (Hback Hadmin).
Defined.

(** Once [authenticate] has let a request through, none of the guards that
    may follow it answers 401: [authorize], [requireEmailVerification],
    [ownerOrAdmin] and [requirePermission] find a principal on the request
    and either pass or deny with 403. *)
Theorem guards_after_authenticate_never_401
    (jwt_verify : string -> Js.attempt (option Z))
    (findByPk : option Z -> Js.attempt (option User.t))
    (loose_eq : option string -> Z -> bool)
    (req req' : Request) (roles : list string)
    (resourceIdParam userIdField resource : string) (message : string) :
  Auth.authenticate jwt_verify findByPk req = (req', Next) ->
  Auth.authorize roles req' <> Respond 401 message /\
  Auth.requireEmailVerification req' <> Respond 401 message /\
  Auth.ownerOrAdmin loose_eq resourceIdParam userIdField req'
    <> Respond 401 message /\
  Auth.requirePermission resource req' <> Js.Returns (Respond 401 message).
Proof.
  intros Hrun.
  destruct (authenticate_cases jwt_verify findByPk req)
    as [(u & _ & Heq) | (_ & m & Heq)]; rewrite Heq in Hrun;
    [|discriminate].
  injection Hrun as <-.
  unfold Auth.authorize, Auth.requireEmailVerification, Auth.ownerOrAdmin,
    Auth.requirePermission.
  cbn [user set_user]. repeat split.
  - destruct (negb _); discriminate.
  - destruct (negb _); discriminate.
  - destruct (String.eqb _ _); [discriminate|].
    destruct (_ && _); discriminate.
  - destruct (User.canAccess u resource) as [[|]|name]; discriminate.
Qed.

Lemma guards_after_authenticate_never_401_witness :
  Auth.authenticate Sample.jwt_verify Sample.findByPk (Sample.bearer "alice-token")
  = (set_user Sample.alice (Sample.bearer "alice-token"), Next) /\
  Auth.requirePermission "orders.read"
    (set_user Sample.alice (Sample.bearer "alice-token"))
  <> Js.Returns (Respond 401 "Authentication required").
Proof.
  assert (Hrun : Auth.authenticate Sample.jwt_verify Sample.findByPk
                   (Sample.bearer "alice-token")
                 = (set_user Sample.alice (Sample.bearer "alice-token"), Next))
    by reflexivity.
  split; [exact Hrun|].
  exact (proj2 (proj2 (proj2
    (guards_after_authenticate_never_401
       Sample.jwt_verify Sample.findByPk Sample.loose_eq _ _
       ["admin"] "id" "userId" "orders.read" "Authentication required" Hrun)))).
Defined.

(** ** Role permissions *)

Lemma canAccess_moderator (this : User.t) (resource : string) :
  User.role this = Constants.USER_ROLES_MODERATOR ->
  User.canAccess this resource
  = Js.Returns (String.eqb "users.read" resource
                || (Js.startsWith "products" resource
                    || (String.eqb "orders.read" resource || false))).
Proof. intros Hrole. unfold User.canAccess, User.userPermissions. rewrite Hrole. reflexivity. Qed.

Lemma canAccess_user (this : User.t) (resource : string) :
  User.role this = Constants.USER_ROLES_USER ->
  User.canAccess this resource
  = Js.Returns (Js.startsWith "profile" resource
                || (String.eqb "orders.own" resource || false)).
Proof. intros Hrole. unfold User.canAccess, User.userPermissions. rewrite Hrole. reflexivity. Qed.

(** What [canAccess] grants to each of the three roles.  An admin may access
    every resource.  A moderator may access 'users.read', 'orders.read' and
    every resource whose name begins with 'products'; a user may access
    'orders.own' and every resource whose name begins with 'profile'.  The
    wildcard entries match on the text before '.*', so the dot is not
    required: 'products' itself and 'productsX' are granted too. *)
Theorem canAccess_by_role (this : User.t) (resource : string) :
  (User.role this = Constants.USER_ROLES_ADMIN ->
   User.canAccess this resource = Js.Returns true) /\
  (User.role this = Constants.USER_ROLES_MODERATOR ->
   exists allowed,
     User.canAccess this resource = Js.Returns allowed /\
     (allowed = true <->
      resource = "users.read" \/ (exists rest, resource = "products" ++ rest) \/
      resource = "orders.read")) /\
  (User.role this = Constants.USER_ROLES_USER ->
   exists allowed,
     User.canAccess this resource = Js.Returns allowed /\
     (allowed = true <->
      (exists rest, resource = "profile" ++ rest) \/ resource = "orders.own")).
Proof.
  split; [|split].
  - intros Hrole. unfold User.canAccess, User.userPermissions. rewrite Hrole.
    reflexivity.
  - intros Hrole. eexists. split; [apply canAccess_moderator; exact Hrole|].
    rewrite !orb_true_iff, !String.eqb_eq, startsWith_prefix.
    intuition congruence.
  - intros Hrole. eexists. split; [apply canAccess_user; exact Hrole|].
    rewrite !orb_true_iff, !String.eqb_eq, startsWith_prefix.
    intuition congruence.
Qed.

Lemma canAccess_by_role_witness :
  User.role (User.mk 9 "mod@example.com" "moderator" "active" true)
  = Constants.USER_ROLES_MODERATOR /\
  exists allowed,
    User.canAccess (User.mk 9 "mod@example.com" "moderator" "active" true)
      "productsX" = Js.Returns allowed /\
    (allowed = true <->
     "productsX" = "users.read" \/ (exists rest, "productsX" = "products" ++ rest) \/
     "productsX" = "orders.read").
Proof.
  split; [reflexivity|].
  exact (proj1 (proj2 (canAccess_by_role
                         (User.mk 9 "mod@example.com" "moderator" "active" true)
                         "productsX")) eq_refl).
Defined.

(** [requirePermission(resource)] lets an admin through for every resource.
    A principal whose role is none of admin, moderator and user (and no name
    inherited from [Object.prototype]) is denied every resource with 403: a
    role without an entry has no permissions.  For an inherited name the
    permission lookup throws instead of answering. *)
Theorem requirePermission_admin_all_unknown_none
    (resource : string) (req : Request) (u : User.t) :
  user req = Some u ->
  (User.role u = Constants.USER_ROLES_ADMIN ->
   Auth.requirePermission resource req = Js.Returns Next) /\
  (~ In (User.role u) [Constants.USER_ROLES_ADMIN; Constants.USER_ROLES_MODERATOR;
                       Constants.USER_ROLES_USER] ->
   (~ In (User.role u) Js.object_prototype_names ->
    Auth.requirePermission resource req
    = Js.Returns (Respond 403 "Insufficient permissions")) /\
   (In (User.role u) Js.object_prototype_names ->
    Auth.requirePermission resource req = Js.Throws "TypeError")).
Proof.
  intros Huser. unfold Auth.requirePermission. rewrite Huser. split.
  - intros Hrole. unfold User.canAccess, User.userPermissions. rewrite Hrole.
    reflexivity.
  - intros Hnone.
    assert (Hperm : User.permissions (User.role u) = None).
    { unfold User.permissions.
      destruct (String.eqb (User.role u) Constants.USER_ROLES_ADMIN) eqn:Ha.
      { apply String.eqb_eq in Ha. exfalso. apply Hnone. simpl. auto. }
      destruct (String.eqb (User.role u) Constants.USER_ROLES_MODERATOR) eqn:Hm.
      { apply String.eqb_eq in Hm. exfalso. apply Hnone. simpl. auto. }
      destruct (String.eqb (User.role u) Constants.USER_ROLES_USER) eqn:Hu.
      { apply String.eqb_eq in Hu. exfalso. apply Hnone. simpl. auto. }
      reflexivity. }
    unfold User.canAccess, User.userPermissions. rewrite Hperm.
    unfold Js.inherited. split.
    + intros Hown.
      destruct (existsb (String.eqb (User.role u)) Js.object_prototype_names)
        eqn:Hin; [|reflexivity].
      apply includes_role in Hin. contradiction.
    + intros Hin. apply includes_role in Hin. rewrite Hin. reflexivity.
Qed.

Lemma requirePermission_admin_all_unknown_none_witness :
  user (Sample.as_user (User.mk 5 "g@example.com" "guest" "active" true) ∅)
  = Some (User.mk 5 "g@example.com" "guest" "active" true) /\
  Auth.requirePermission "profile.read"
    (Sample.as_user (User.mk 5 "g@example.com" "guest" "active" true) ∅)
  = Js.Returns (Respond 403 "Insufficient permissions").
Proof.
  split; [reflexivity|].
  refine (proj1 (proj2 (requirePermission_admin_all_unknown_none
                          "profile.read"
                          (Sample.as_user
                             (User.mk 5 "g@example.com" "guest" "active" true) ∅)
                          (User.mk 5 "g@example.com" "guest" "active" true)
                          eq_refl) _) _).
  - simpl. intros [H | [H | [H | []]]]; discriminate H.
  - unfold Js.object_prototype_names. simpl.
    intros H. repeat (destruct H as [H | H]; [discriminate H|]). exact H.
Defined.

(** ** The rate limit over whole runs *)

(** The limiter keeps one log per user id: a request of [u] reads and writes
    the log of [u] alone.  The logs of all other users are left as they
    were, and the answer depends on nothing but the log of [u]. *)
Theorem userRateLimit_isolated_per_user
    (maxRequests windowMs : Z) (store store2 : Auth.history)
    (req : Request) (u : User.t) (now other : Z) :
  user req = Some u ->
  (other <> User.id u ->
   fst (Auth.userRateLimit maxRequests windowMs store req now) !! other
   = store !! other) /\
  (store2 !! User.id u = store !! User.id u ->
   snd (Auth.userRateLimit maxRequests windowMs store2 req now)
   = snd (Auth.userRateLimit maxRequests windowMs store req now)).
Proof.
  intros Huser. unfold Auth.userRateLimit. rewrite Huser. split.
  - intros Hother.
    destruct (Z.leb maxRequests _); cbn [fst];
      apply lookup_insert_ne; congruence.
  - intros ->. destruct (Z.leb maxRequests _); reflexivity.
Qed.

Lemma userRateLimit_isolated_per_user_witness :
  user (Sample.as_user Sample.alice ∅) = Some Sample.alice /\
  (8 <> User.id Sample.alice ->
   fst (Auth.userRateLimit 2 10 {[8 := [100; 101]]}
          (Sample.as_user Sample.alice ∅) 105) !! 8
   = ({[8 := [100; 101]]} : Auth.history) !! 8).
Proof.
  split; [reflexivity|].
  exact (proj1 (userRateLimit_isolated_per_user
                  2 10 {[8 := [100; 101]]} ∅ (Sample.as_user Sample.alice ∅)
                  Sample.alice 105 8 eq_refl)).
Defined.

Section RateLimitRuns.

Variables (maxRequests windowMs : Z) (req : Request) (u : User.t).
Hypothesis Huser : user req = Some u.
Hypothesis Hwindow : 0 < windowMs.

Local Abbreviation within_limit := (Auth.within_limit maxRequests windowMs).

Lemma filter_later_window (earlier later : Z) (l : list Z) :
  earlier <= later ->
  List.filter (fun t => Z.ltb (later - windowMs) t)
              (List.filter (fun t => Z.ltb (earlier - windowMs) t) l)
  = List.filter (fun t => Z.ltb (later - windowMs) t) l.
Proof.
  intros Hle. induction l as [|t l IH]; simpl; [reflexivity|].
  destruct (Z.ltb (earlier - windowMs) t) eqn:He; simpl.
  - rewrite IH. reflexivity.
  - rewrite IH. apply Z.ltb_ge in He.
    rewrite (proj2 (Z.ltb_ge (later - windowMs) t)) by lia. reflexivity.
Qed.

Lemma within_limit_snoc (admitted : list Z) (now : Z) :
  within_limit admitted ->
  Z.of_nat (length (List.filter (fun t => Z.ltb (now - windowMs) t) admitted))
  < maxRequests ->
  within_limit (admitted ++ [now]).
Proof.
  intros Hold Hroom before t after Hsplit.
  destruct after as [|x after _] using rev_ind.
  - apply app_inj_tail in Hsplit as [<- <-].
    rewrite List.filter_app, length_app. cbn [List.filter].
    rewrite (proj2 (Z.ltb_lt (now - windowMs) now)) by lia. simpl. lia.
  - change (before ++ t :: after ++ [x])%list
      with (before ++ (t :: after) ++ [x])%list in Hsplit.
    rewrite app_assoc in Hsplit. apply app_inj_tail in Hsplit as [-> _].
    eapply Hold. reflexivity.
Qed.

Lemma run_requests_within_limit (arrivals : list Z) :
  forall (store : Auth.history) (admitted_before : list Z) (last : Z),
    default [] (store !! User.id u)
    = List.filter (fun t => Z.ltb (last - windowMs) t) admitted_before ->
    Auth.in_order last arrivals = true ->
    within_limit admitted_before ->
    within_limit
      (admitted_before
       ++ Auth.admitted arrivals
            (snd (Auth.run_requests maxRequests windowMs store req arrivals))).
Proof.
  induction arrivals as [|now rest IH];
    intros store admitted_before last Hlog Horder Hok.
  - simpl. rewrite app_nil_r. exact Hok.
  - cbn [Auth.in_order] in Horder.
    apply andb_true_iff in Horder as [Hnow Hrest]. apply Z.leb_le in Hnow.
    assert (Hlive : Auth.live windowMs store (User.id u) now
                    = List.filter (fun t => Z.ltb (now - windowMs) t)
                                  admitted_before).
    { unfold Auth.live. rewrite Hlog. apply filter_later_window. exact Hnow. }
    cbn [Auth.run_requests].
    destruct (Z_lt_le_dec
                (Z.of_nat (length (Auth.live windowMs store (User.id u) now)))
                maxRequests) as [Hroom | Hfull].
    + rewrite (userRateLimit_under_limit maxRequests windowMs req u Huser)
        by exact Hroom.
      destruct (Auth.run_requests maxRequests windowMs
                  (<[User.id u :=
                       (Auth.live windowMs store (User.id u) now ++ [now])%list]>
                     store) req rest) as [store2 os] eqn:Hrun.
      cbn [snd Auth.admitted].
      change (admitted_before ++ now :: Auth.admitted rest os)%list
        with (admitted_before ++ [now] ++ Auth.admitted rest os)%list.
      rewrite app_assoc.
      replace os with
        (snd (Auth.run_requests maxRequests windowMs
                (<[User.id u :=
                     (Auth.live windowMs store (User.id u) now ++ [now])%list]>
                   store) req rest)) by (rewrite Hrun; reflexivity).
      apply (IH _ _ now).
      * rewrite lookup_insert_eq. cbn [default]. unfold id at 1.
        rewrite Hlive, List.filter_app. cbn [List.filter].
        rewrite (proj2 (Z.ltb_lt (now - windowMs) now)) by lia. reflexivity.
      * exact Hrest.
      * apply within_limit_snoc; [exact Hok|]. rewrite <- Hlive. exact Hroom.
    + rewrite (userRateLimit_at_limit maxRequests windowMs req u Huser)
        by exact Hfull.
      destruct (Auth.run_requests maxRequests windowMs
                  (<[User.id u := Auth.live windowMs store (User.id u) now]> store)
                  req rest) as [store2 os] eqn:Hrun.
      cbn [snd Auth.admitted].
      replace os with
        (snd (Auth.run_requests maxRequests windowMs
                (<[User.id u := Auth.live windowMs store (User.id u) now]> store)
                req rest)) by (rewrite Hrun; reflexivity).
      apply (IH _ _ now).
      * rewrite lookup_insert_eq. cbn [default]. unfold id at 1. exact Hlive.
      * exact Hrest.
      * exact Hok.
Qed.

End RateLimitRuns.

Lemma filter_length_le_implied (f g : Z -> bool) (l : list Z) :
  (forall t, f t = true -> g t = true) ->
  (length (List.filter f l) <= length (List.filter g l))%nat.
Proof.
  intros Himp. induction l as [|t l IH]; simpl; [lia|].
  destruct (f t) eqn:Hf.
  - rewrite (Himp t Hf). simpl. lia.
  - destruct (g t); simpl; lia.
Qed.

Lemma within_limit_any_window (maxRequests windowMs : Z) (admitted : list Z) (x : Z) :
  0 <= maxRequests ->
  Auth.within_limit maxRequests windowMs admitted ->
  Z.of_nat (length (List.filter (fun t => Z.ltb (x - windowMs) t && Z.leb t x)
                                admitted))
  <= maxRequests.
Proof.
  intros Hmax. induction admitted as [|a admitted IH] using rev_ind;
    intros Hok; [simpl; lia|].
  assert (Hprefix : Auth.within_limit maxRequests windowMs admitted).
  { intros before now after ->. apply (Hok before now (after ++ [a])%list).
    rewrite <- app_assoc. reflexivity. }
  destruct (Z.ltb (x - windowMs) a && Z.leb a x) eqn:Hin.
  - apply andb_true_iff in Hin as [Hlo Hhi].
    apply Z.ltb_lt in Hlo. apply Z.leb_le in Hhi.
    specialize (Hok admitted a [] eq_refl).
    pose proof (filter_length_le_implied
                  (fun t => Z.ltb (x - windowMs) t && Z.leb t x)
                  (fun t => Z.ltb (a - windowMs) t) (admitted ++ [a])) as Hle.
    assert (Himp : forall t,
               Z.ltb (x - windowMs) t && Z.leb t x = true ->
               Z.ltb (a - windowMs) t = true).
    { intros t Ht. apply andb_true_iff in Ht as [Ht _].
      apply Z.ltb_lt in Ht. apply Z.ltb_lt. lia. }
    specialize (Hle Himp). lia.
  - rewrite List.filter_app, length_app. cbn [List.filter]. rewrite Hin.
    simpl. specialize (IH Hprefix). lia.
Qed.

(** The guarantee of the limiter.  For a user whose log starts empty and
    whose requests arrive in the order of the clock, no interval of
    [windowMs] milliseconds contains more than [maxRequests] admitted
    requests, wherever the interval is placed. *)
Theorem userRateLimit_never_more_than_max_per_window
    (maxRequests windowMs : Z) (store : Auth.history) (req : Request)
    (u : User.t) (first : Z) (arrivals : list Z) (x : Z) :
  user req = Some u ->
  0 < windowMs ->
  0 <= maxRequests ->
  default [] (store !! User.id u) = [] ->
  Auth.in_order first arrivals = true ->
  Z.of_nat
    (length
       (List.filter (fun t => Z.ltb (x - windowMs) t && Z.leb t x)
          (Auth.admitted arrivals
             (snd (Auth.run_requests maxRequests windowMs store req arrivals)))))
  <= maxRequests.
Proof.
  intros Huser Hwindow Hmax Hempty Horder.
  apply within_limit_any_window; [exact Hmax|].
  apply (run_requests_within_limit maxRequests windowMs req u Huser Hwindow
           arrivals store [] first).
  - rewrite Hempty. reflexivity.
  - exact Horder.
  - intros before now after Hsplit. destruct before; discriminate Hsplit.
Qed.

Lemma userRateLimit_never_more_than_max_per_window_witness :
  (user (Sample.as_user Sample.alice ∅) = Some Sample.alice /\
   0 < 10 /\ 0 <= 2 /\
   default [] ((∅ : Auth.history) !! User.id Sample.alice) = [] /\
   Auth.in_order 0 [0; 9; 10; 11; 19; 20] = true) /\
  Z.of_nat
    (length
       (List.filter (fun t => Z.ltb (12 - 10) t && Z.leb t 12)
          (Auth.admitted [0; 9; 10; 11; 19; 20]
             (snd (Auth.run_requests 2 10 ∅ (Sample.as_user Sample.alice ∅)
                     [0; 9; 10; 11; 19; 20])))))
  <= 2.
Proof.
  assert (Hwindow : 0 < 10) by lia.
  assert (Hmax : 0 <= 2) by lia.
  split; [repeat split; try reflexivity; assumption|].
  exact (userRateLimit_never_more_than_max_per_window
           2 10 ∅ (Sample.as_user Sample.alice ∅) Sample.alice 0
           [0; 9; 10; 11; 19; 20] 12 eq_refl Hwindow Hmax eq_refl eq_refl).
Defined.

(** ** Revoking and cleaning up refresh tokens *)

Lemma set_revoked_not_valid (now : Z) (tok : string) (r : RefreshToken.t) :
  RefreshToken.where_valid now tok (RefreshToken.set_revoked r) = false.
Proof.
  unfold RefreshToken.where_valid, RefreshToken.set_revoked. simpl.
  rewrite andb_false_r. reflexivity.
Qed.

Lemma same_id_same_row (rows : list RefreshToken.t) (a b : RefreshToken.t) :
  NoDup (List.map RefreshToken.id rows) ->
  In a rows -> In b rows -> RefreshToken.id a = RefreshToken.id b -> a = b.
Proof.
  induction rows as [|r rows IH]; simpl; intros Hnodup Ha Hb Hid; [contradiction|].
  apply NoDup_cons in Hnodup as [Hfresh Hnodup].
  rewrite list_elem_of_In in Hfresh.
  destruct Ha as [<- | Ha], Hb as [<- | Hb].
  - reflexivity.
  - exfalso. apply Hfresh. rewrite Hid. apply in_map. exact Hb.
  - exfalso. apply Hfresh. rewrite <- Hid. apply in_map. exact Ha.
  - apply IH; assumption.
Qed.

(** [revoke] on an instance loaded from the table (ids being the primary
    key): the instance is no longer valid at any instant, no lookup by
    [findValidToken] returns the row with its id any more, and every other
    row is still in the table, unchanged. *)
Theorem revoke_makes_row_unfindable
    (this : RefreshToken.t) (rows : list RefreshToken.t) (now : Z) (tok : string) :
  In this rows ->
  NoDup (List.map RefreshToken.id rows) ->
  RefreshToken.isValid now (fst (RefreshToken.revoke this rows)) = false /\
  (forall r,
     RefreshToken.findValidToken now (snd (RefreshToken.revoke this rows)) tok
     = Some r ->
     RefreshToken.id r <> RefreshToken.id this) /\
  (forall r,
     In r rows -> RefreshToken.id r <> RefreshToken.id this ->
     In r (snd (RefreshToken.revoke this rows))).
Proof.
  intros Hin Hkey. unfold RefreshToken.revoke.
  destruct (RefreshToken.isRevoked this) as [[|]|] eqn:Hflag; cbn [fst snd].
  - split; [|split].
    + unfold RefreshToken.isValid. rewrite Hflag. reflexivity.
    + intros r Hfind Hid.
      apply findValidToken_Some in Hfind as (Hr & _ & Hlive & _).
      rewrite (same_id_same_row rows r this Hkey Hr Hin Hid) in Hlive. congruence.
    + auto.
  - split; [reflexivity | split].
    + intros r Hfind Hid.
      apply findValidToken_Some in Hfind as (Hr & _ & Hlive & _).
      apply in_map_iff in Hr as (r0 & Hr0 & _).
      destruct (Z.eqb (RefreshToken.id r0) (RefreshToken.id this)) eqn:Hsame.
      * subst r. discriminate Hlive.
      * subst r. apply Z.eqb_neq in Hsame. contradiction.
    + intros r Hr Hid. apply in_map_iff. exists r. split; [|exact Hr].
      rewrite (proj2 (Z.eqb_neq _ _)) by exact Hid. reflexivity.
  - split; [reflexivity | split].
    + intros r Hfind Hid.
      apply findValidToken_Some in Hfind as (Hr & _ & Hlive & _).
      apply in_map_iff in Hr as (r0 & Hr0 & _).
      destruct (Z.eqb (RefreshToken.id r0) (RefreshToken.id this)) eqn:Hsame.
      * subst r. discriminate Hlive.
      * subst r. apply Z.eqb_neq in Hsame. contradiction.
    + intros r Hr Hid. apply in_map_iff. exists r. split; [|exact Hr].
      rewrite (proj2 (Z.eqb_neq _ _)) by exact Hid. reflexivity.
Qed.

Lemma revoke_makes_row_unfindable_witness :
  (In Sample.live_token [Sample.revoked_token; Sample.live_token] /\
   NoDup (List.map RefreshToken.id [Sample.revoked_token; Sample.live_token])) /\
  RefreshToken.isValid 500
    (fst (RefreshToken.revoke Sample.live_token
            [Sample.revoked_token; Sample.live_token])) = false.
Proof.
  assert (Hin : In Sample.live_token [Sample.revoked_token; Sample.live_token])
    by (right; left; reflexivity).
  assert (Hkey : NoDup (List.map RefreshToken.id
                          [Sample.revoked_token; Sample.live_token])).
  { simpl. apply NoDup_cons. split.
    - rewrite list_elem_of_In. simpl. intros [H | []]. discriminate H.
    - apply NoDup_cons. split; [apply not_elem_of_nil | apply NoDup_nil_2]. }
  split; [split; assumption|].
  exact (proj1 (revoke_makes_row_unfindable
                  Sample.live_token [Sample.revoked_token; Sample.live_token]
                  500 "rt-2" Hin Hkey)).
Defined.

Lemma find_valid_after_revokeAll (uid now : Z) (tok : string)
    (rows : list RefreshToken.t) (r : RefreshToken.t) :
  RefreshToken.findValidToken now rows tok = Some r ->
  RefreshToken.userId r <> uid ->
  RefreshToken.findValidToken now (RefreshToken.revokeAllUserTokens uid rows) tok
  = Some r.
Proof.
  unfold RefreshToken.findValidToken, RefreshToken.revokeAllUserTokens.
  induction rows as [|a rows IH]; simpl; [discriminate|].
  intros Hfind Hother.
  destruct (RefreshToken.where_valid now tok a) eqn:Hvalid.
  - injection Hfind as ->.
    rewrite (proj2 (Z.eqb_neq _ _)) by exact Hother. cbn [andb].
    rewrite Hvalid. reflexivity.
  - destruct (Z.eqb (RefreshToken.userId a) uid
              && match RefreshToken.isRevoked a with
                 | Some false => true
                 | _ => false
                 end).
    + rewrite set_revoked_not_valid. apply IH; assumption.
    + rewrite Hvalid. apply IH; assumption.
Qed.

(** [revokeAllUserTokens(userId)]: afterwards [findValidToken] returns no
    token of that user, whatever token is asked for; a lookup that returned
    a token of another user before still returns it; and running it a
    second time changes nothing. *)
Theorem revokeAllUserTokens_revokes_user_only
    (uid now : Z) (tok : string) (rows : list RefreshToken.t) :
  (forall r,
     RefreshToken.findValidToken now
       (RefreshToken.revokeAllUserTokens uid rows) tok = Some r ->
     RefreshToken.userId r <> uid) /\
  (forall r,
     RefreshToken.findValidToken now rows tok = Some r ->
     RefreshToken.userId r <> uid ->
     RefreshToken.findValidToken now
       (RefreshToken.revokeAllUserTokens uid rows) tok = Some r) /\
  RefreshToken.revokeAllUserTokens uid (RefreshToken.revokeAllUserTokens uid rows)
  = RefreshToken.revokeAllUserTokens uid rows.
Proof.
  split; [|split].
  - intros r Hfind Hsame.
    apply findValidToken_Some in Hfind as (Hr & _ & Hlive & _).
    unfold RefreshToken.revokeAllUserTokens in Hr.
    apply in_map_iff in Hr as (r0 & Hr0 & _).
    destruct (Z.eqb (RefreshToken.userId r0) uid) eqn:Huid; cbn [andb] in Hr0.
    + destruct (RefreshToken.isRevoked r0) as [[|]|] eqn:Hflag;
        subst r; simpl in Hlive; congruence.
    + subst r. apply Z.eqb_neq in Huid. contradiction.
  - intros r. apply find_valid_after_revokeAll.
  - unfold RefreshToken.revokeAllUserTokens. rewrite List.map_map.
    apply List.map_ext. intros r.
    destruct (Z.eqb (RefreshToken.userId r) uid) eqn:Huid; cbn [andb].
    + destruct (RefreshToken.isRevoked r) as [[|]|] eqn:Hflag.
      * rewrite Huid, Hflag. reflexivity.
      * simpl. rewrite andb_false_r. reflexivity.
      * rewrite Huid, Hflag. reflexivity.
    + rewrite Huid. reflexivity.
Qed.

Lemma find_after_filter {A : Type} (f g : A -> bool) (l : list A) :
  (forall x, f x = true -> g x = true) ->
  List.find f (List.filter g l) = List.find f l.
Proof.
  intros Himp. induction l as [|x l IH]; simpl; [reflexivity|].
  destruct (g x) eqn:Hg; simpl.
  - rewrite IH. reflexivity.
  - destruct (f x) eqn:Hf; [|exact IH]. rewrite (Himp x Hf) in Hg. discriminate.
Qed.

Lemma filter_partition_length {A : Type} (f : A -> bool) (l : list A) :
  (length (List.filter f l) + length (List.filter (fun x => negb (f x)) l)
   = length l)%nat.
Proof.
  induction l as [|x l IH]; simpl; [reflexivity|].
  destruct (f x); simpl; lia.
Qed.

(** [cleanupExpiredTokens] never removes a token that could still be
    exchanged: at the instant of the cleanup and at any later one,
    [findValidToken] returns the same as on the table before.  The number it
    returns is the number of rows it removed, and no row with [expiresAt]
    before the cleanup is left. *)
Theorem cleanupExpiredTokens_keeps_valid_tokens
    (now later : Z) (tok : string) (rows : list RefreshToken.t) :
  now <= later ->
  RefreshToken.findValidToken later
    (fst (RefreshToken.cleanupExpiredTokens now rows)) tok
  = RefreshToken.findValidToken later rows tok /\
  snd (RefreshToken.cleanupExpiredTokens now rows)
  + Z.of_nat (length (fst (RefreshToken.cleanupExpiredTokens now rows)))
  = Z.of_nat (length rows) /\
  Forall (fun r => now <= RefreshToken.expiresAt r)
         (fst (RefreshToken.cleanupExpiredTokens now rows)).
Proof.
  intros Hlater. unfold RefreshToken.cleanupExpiredTokens. cbn [fst snd].
  split; [|split].
  - unfold RefreshToken.findValidToken. apply find_after_filter.
    intros r Hvalid. apply where_valid_true in Hvalid as (_ & _ & Hlive).
    apply negb_true_iff, Z.ltb_ge. lia.
  - pose proof (filter_partition_length
                  (fun r => Z.ltb (RefreshToken.expiresAt r) now) rows). lia.
  - apply List.Forall_forall. intros r Hr.
    apply List.filter_In in Hr as [_ Hkeep].
    apply negb_true_iff, Z.ltb_ge in Hkeep. exact Hkeep.
Qed.

Lemma cleanupExpiredTokens_keeps_valid_tokens_witness :
  5000 <= 6000 /\
  RefreshToken.findValidToken 6000
    (fst (RefreshToken.cleanupExpiredTokens 5000
            [Sample.revoked_token; Sample.live_token])) "rt-2"
  = RefreshToken.findValidToken 6000 [Sample.revoked_token; Sample.live_token] "rt-2".
Proof.
  assert (Hlater : 5000 <= 6000) by lia.
  split; [exact Hlater|].
  exact (proj1 (cleanupExpiredTokens_keeps_valid_tokens
                  5000 6000 "rt-2" [Sample.revoked_token; Sample.live_token] Hlater)).
Defined.

Lemma revokeAllUserTokens_revokes_user_only_witness :
  RefreshToken.findValidToken 500 [Sample.revoked_token; Sample.live_token] "rt-2"
  = Some Sample.live_token /\
  RefreshToken.userId Sample.live_token <> 8 /\
  RefreshToken.findValidToken 500
    (RefreshToken.revokeAllUserTokens 8 [Sample.revoked_token; Sample.live_token])
    "rt-2" = Some Sample.live_token.
Proof.
  assert (Hfind : RefreshToken.findValidToken 500
                    [Sample.revoked_token; Sample.live_token] "rt-2"
                  = Some Sample.live_token) by reflexivity.
  assert (Hother : RefreshToken.userId Sample.live_token <> 8) by discriminate.
  split; [exact Hfind | split; [exact Hother|]].
  exact (proj1 (proj2 (revokeAllUserTokens_revokes_user_only
                         8 500 "rt-2" [Sample.revoked_token; Sample.live_token]))
               Sample.live_token Hfind Hother).
Defined.

(** ** The cache as a store *)

Lemma fire_timers_due (now : Z) (this : Cache.MemoryCache)
    (key : string) (due : Z) :
  Cache.timers this !! key = Some due -> due <= now ->
  Cache.cache (Cache.fire_timers now this) !! key = None.
Proof.
  intros Htimer Hdue. unfold Cache.fire_timers. rewrite delete_all_cache.
  rewrite bool_decide_eq_true_2; [reflexivity|].
  apply elem_of_due_keys. eauto.
Qed.

Lemma event_loop_absent (ticks : list Z) (this : Cache.MemoryCache) (key : string) :
  Cache.cache this !! key = None ->
  Cache.cache (Cache.event_loop ticks this) !! key = None.
Proof.
  unfold Cache.event_loop. revert this.
  induction ticks as [|tick ticks IH]; intros this Hnone; cbn [foldl];
    [exact Hnone|].
  apply IH. unfold Cache.fire_timers. rewrite delete_all_cache.
  destruct (bool_decide _); [reflexivity | exact Hnone].
Qed.

Lemma event_loop_due (ticks : list Z) (this : Cache.MemoryCache)
    (key : string) (due : Z) :
  Cache.timers this !! key = Some due ->
  Exists (fun tick => due <= tick) ticks ->
  Cache.cache (Cache.event_loop ticks this) !! key = None.
Proof.
  intros Htimer Hex. revert this Htimer.
  induction Hex as [tick ticks Hdue | tick ticks _ IH]; intros this Htimer.
  - change (Cache.event_loop (tick :: ticks) this)
      with (Cache.event_loop ticks (Cache.fire_timers tick this)).
    apply event_loop_absent. exact (fire_timers_due _ _ _ _ Htimer Hdue).
  - change (Cache.event_loop (tick :: ticks) this)
      with (Cache.event_loop ticks (Cache.fire_timers tick this)).
    destruct (Z_lt_le_dec tick due) as [Hearly | Hdue].
    + apply IH. exact (proj2 (fire_timers_not_due _ _ _ _ Htimer Hearly)).
    + apply event_loop_absent. exact (fire_timers_due _ _ _ _ Htimer Hdue).
Qed.

(** Round trip, with the event loop running its due timers at the instants
    [ticks] between the set and the read.  Take a read no later than [ttl]
    seconds after the set.  As long as no turn of the event loop has reached
    the instant the timeout of the set is due, the read gives the value that
    was set and leaves the cache as it is; once a turn has reached it, the
    read finds nothing.  That instant is [ttl * 1000] milliseconds after the
    set when this is between 1 and 2147483647, and one millisecond after the
    set otherwise. *)
Theorem get_after_set_within_ttl
    (key : string) (value : Js.value) (ttl_s t0 now : Z) (ticks : list Z)
    (this : Cache.MemoryCache) :
  now - t0 <= ttl_s * 1000 ->
  (Forall (fun tick => tick < Cache.timer_due t0 (ttl_s * 1000)) ticks ->
   Cache.get key now (Cache.event_loop ticks (Cache.set key value ttl_s t0 this))
   = (Cache.event_loop ticks (Cache.set key value ttl_s t0 this), value)) /\
  (Exists (fun tick => Cache.timer_due t0 (ttl_s * 1000) <= tick) ticks ->
   Cache.get key now (Cache.event_loop ticks (Cache.set key value ttl_s t0 this))
   = (Cache.event_loop ticks (Cache.set key value ttl_s t0 this), Js.JNull)).
Proof.
  intros Hfresh.
  assert (Htimer : Cache.timers (Cache.set key value ttl_s t0 this) !! key
                   = Some (Cache.timer_due t0 (ttl_s * 1000)))
    by apply lookup_insert_eq.
  split.
  - intros Hearly.
    destruct (event_loop_not_due ticks _ key _ Htimer Hearly) as [Hkept _].
    unfold Cache.get. rewrite Hkept. cbn [Cache.set Cache.cache].
    rewrite lookup_insert_eq. cbn [Cache.ttl Cache.timestamp Cache.data].
    rewrite (proj2 (Z.ltb_ge _ _)) by lia. reflexivity.
  - intros Hdue. unfold Cache.get.
    rewrite (event_loop_due ticks _ key _ Htimer Hdue). reflexivity.
Qed.

Lemma get_after_set_within_ttl_witness :
  (301000 - 1000 <= 300 * 1000 /\
   Forall (fun tick => tick < Cache.timer_due 1000 (300 * 1000)) [150000; 300999] /\
   Exists (fun tick => Cache.timer_due 1000 (300 * 1000) <= tick) [150000; 301000]) /\
  Cache.get "GET:/a:{}" 301000
    (Cache.event_loop [150000; 300999]
       (Cache.set "GET:/a:{}" (Js.JStr "payload") 300 1000 Cache.empty))
  = (Cache.event_loop [150000; 300999]
       (Cache.set "GET:/a:{}" (Js.JStr "payload") 300 1000 Cache.empty),
     Js.JStr "payload") /\
  Cache.get "GET:/a:{}" 301000
    (Cache.event_loop [150000; 301000]
       (Cache.set "GET:/a:{}" (Js.JStr "payload") 300 1000 Cache.empty))
  = (Cache.event_loop [150000; 301000]
       (Cache.set "GET:/a:{}" (Js.JStr "payload") 300 1000 Cache.empty),
     Js.JNull).
Proof.
  assert (Hfresh : 301000 - 1000 <= 300 * 1000) by lia.
  assert (Hearly : Forall (fun tick => tick < Cache.timer_due 1000 (300 * 1000))
                          [150000; 300999])
    by (repeat constructor; vm_compute; reflexivity).
  assert (Hdue : Exists (fun tick => Cache.timer_due 1000 (300 * 1000) <= tick)
                        [150000; 301000])
    by (right; left; vm_compute; discriminate).
  split; [auto|]. split.
  - exact (proj1 (get_after_set_within_ttl "GET:/a:{}" (Js.JStr "payload")
                    300 1000 301000 [150000; 300999] Cache.empty Hfresh) Hearly).
  - exact (proj2 (get_after_set_within_ttl "GET:/a:{}" (Js.JStr "payload")
                    300 1000 301000 [150000; 301000] Cache.empty Hfresh) Hdue).
Defined.

(** ** Entries and timers stay in step *)

(** The invariant: every entry has a pending timeout, due at the instant
    [setTimeout] was given for it, and there is no timeout without an
    entry. *)
Lemma in_step_delete_all (ks : list string) (this : Cache.MemoryCache) (key : string) :
  ((forall it, Cache.cache this !! key = Some it ->
      Cache.timers this !! key
      = Some (Cache.timer_due (Cache.timestamp it) (Cache.ttl it))) /\
   (Cache.cache this !! key = None -> Cache.timers this !! key = None)) ->
  (forall it, Cache.cache (Cache.delete_all ks this) !! key = Some it ->
      Cache.timers (Cache.delete_all ks this) !! key
      = Some (Cache.timer_due (Cache.timestamp it) (Cache.ttl it))) /\
  (Cache.cache (Cache.delete_all ks this) !! key = None ->
   Cache.timers (Cache.delete_all ks this) !! key = None).
Proof.
  intros [Hsome Hnone]. rewrite delete_all_cache, delete_all_timers.
  destruct (bool_decide (key ∈ ks)); [split; [discriminate | reflexivity]|].
  split; assumption.
Qed.

Lemma delete_as_delete_all (key : string) (this : Cache.MemoryCache) :
  fst (Cache.delete key this) = Cache.delete_all [key] this.
Proof. reflexivity. Qed.

Lemma cache_in_step (this : Cache.MemoryCache) (key : string) :
  Cache.reachable this ->
  (forall it, Cache.cache this !! key = Some it ->
     Cache.timers this !! key
     = Some (Cache.timer_due (Cache.timestamp it) (Cache.ttl it))) /\
  (Cache.cache this !! key = None -> Cache.timers this !! key = None).
Proof.
  intros Hreach. revert key.
  induction Hreach as [| k v ttl_s now this _ IH | k now this _ IH
                       | k this _ IH | this _ IH | now this _ IH]; intros key.
  - cbn [Cache.empty Cache.cache Cache.timers].
    split; [intros it H; rewrite lookup_empty in H; discriminate H|].
    intros _. apply lookup_empty.
  - cbn [Cache.set Cache.cache Cache.timers].
    destruct (decide (k = key)) as [-> | Hne].
    + rewrite !lookup_insert_eq. split; [|discriminate].
      intros it Hit. injection Hit as <-. reflexivity.
    + rewrite !lookup_insert_ne by exact Hne. apply IH.
  - unfold Cache.get. destruct (Cache.cache this !! k) as [item|]; [|apply IH].
    destruct (Z.ltb (Cache.ttl item) (now - Cache.timestamp item)); [|apply IH].
    cbn [fst]. rewrite delete_as_delete_all. apply in_step_delete_all, IH.
  - rewrite delete_as_delete_all. apply in_step_delete_all, IH.
  - cbn [Cache.clear Cache.cache Cache.timers].
    split; [intros it H; rewrite lookup_empty in H; discriminate H|].
    intros _. apply lookup_empty.
  - unfold Cache.fire_timers. apply in_step_delete_all, IH.
Qed.

(** The middleware and the invalidation keep the cache among these states. *)
Lemma delete_all_reachable (ks : list string) (this : Cache.MemoryCache) :
  Cache.reachable this -> Cache.reachable (Cache.delete_all ks this).
Proof.
  unfold Cache.delete_all. revert this.
  induction ks as [|k ks IH]; intros this Hreach; cbn [foldl]; [exact Hreach|].
  apply IH. apply Cache.reach_delete. exact Hreach.
Qed.

Lemma serve_reachable (opts : Cache.Options) (NODE_ENV : option string)
    (h : Cache.handler) (this : Cache.MemoryCache) (req : Request) (now sent : Z) :
  Cache.reachable this ->
  Cache.reachable (Cache.cache_after (Cache.serve opts NODE_ENV h this req now sent)).
Proof.
  intros Hreach.
  assert (Hlookup : Cache.reachable
                      (fst (Cache.cacheMiddleware opts NODE_ENV this req now))).
  { unfold Cache.cacheMiddleware.
    destruct (_ || _); [exact Hreach|].
    destruct (_ && _); [exact Hreach|].
    destruct (match Cache.condition opts with
              | Some cond => negb (cond req)
              | None => false
              end); [exact Hreach|].
    pose proof (Cache.reach_get (Cache.cache_key opts req) now this Hreach) as Hget.
    destruct (Cache.get (Cache.cache_key opts req) now this) as [this1 v].
    destruct (Js.truthy v); exact Hget. }
  unfold Cache.serve.
  destruct (Cache.cacheMiddleware opts NODE_ENV this req now) as [this1 [|k v|k]];
    cbn [fst] in Hlookup.
  - destruct (h req now). exact Hlookup.
  - destruct (Cache.res_set "X-Cache" "HIT" _) as [res1|]; [|exact Hlookup].
    destruct (Cache.res_set "X-Cache-Key" k res1); exact Hlookup.
  - destruct (h req now) as [status payload]. unfold Cache.json_on_miss.
    cbn [Cache.fresh_response Cache.statusCode].
    destruct (Z.eqb status 200); [|exact Hlookup].
    destruct (Cache.res_set "X-Cache" "MISS" _) as [res1|];
      [|apply Cache.reach_set; exact Hlookup].
    destruct (Cache.res_set "X-Cache-Key" k res1);
      apply Cache.reach_set; exact Hlookup.
Qed.

Lemma send_on_invalidate_reachable (patterns : list string)
    (this : Cache.MemoryCache) (res : Cache.Response) :
  Cache.reachable this ->
  Cache.reachable (Cache.send_on_invalidate patterns this res).
Proof.
  intros Hreach. unfold Cache.send_on_invalidate.
  destruct (_ && _); [|exact Hreach].
  destruct (Nat.ltb 0 (length patterns)); [|exact Hreach].
  revert this Hreach. induction patterns as [|p ps IH]; intros this Hreach;
    cbn [foldl]; [exact Hreach|].
  apply IH. apply delete_all_reachable. exact Hreach.
Qed.

(** In every state the cache can reach, entries and timers are in step, and
    they still are after a request served through [cacheMiddleware] and after
    the invalidation run by [invalidateCache]: no method, timer, request or
    invalidation leaves a timer without its entry or an entry without its
    timer. *)
Theorem reachable_entries_and_timers_in_step
    (this : Cache.MemoryCache) (opts : Cache.Options) (NODE_ENV : option string)
    (h : Cache.handler) (req : Request) (now sent : Z)
    (patterns : list string) (res : Cache.Response) :
  Cache.reachable this ->
  Cache.in_step this /\
  Cache.in_step (Cache.cache_after (Cache.serve opts NODE_ENV h this req now sent)) /\
  Cache.in_step (Cache.send_on_invalidate patterns this res).
Proof.
  intros Hreach. split; [|split]; intros key; apply cache_in_step.
  - exact Hreach.
  - apply serve_reachable. exact Hreach.
  - apply send_on_invalidate_reachable. exact Hreach.
Qed.

Lemma reachable_entries_and_timers_in_step_witness :
  Cache.reachable Sample.warm_cache /\
  Cache.in_step
    (Cache.send_on_invalidate ["products"] Sample.warm_cache
       (Cache.fresh_response 201)).
Proof.
  assert (Hreach : Cache.reachable Sample.warm_cache)
    by (unfold Sample.warm_cache; repeat constructor).
  split; [exact Hreach|].
  exact (proj2 (proj2 (reachable_entries_and_timers_in_step
                         Sample.warm_cache Cache.default_options None
                         Sample.list_handler (Sample.anonymous_get "/a") 0 5
                         ["products"] (Cache.fresh_response 201) Hreach))).
Defined.

(** An entry nobody reads is still reclaimed: once the event loop runs at or
    after the instant its timeout is due, the entry is gone.  That instant is
    [ttl] milliseconds after the set for a ttl a timer can hold, and one
    millisecond after the set for any other ttl (zero, negative, or above
    2147483647), in which case the entry disappears long before [get]
    would call it expired. *)
Theorem unread_entry_removed_when_timer_due
    (this : Cache.MemoryCache) (key : string) (it : Cache.item) (now : Z) :
  Cache.reachable this ->
  Cache.cache this !! key = Some it ->
  (1 <= Cache.ttl it <= Cache.TIMEOUT_MAX ->
   Cache.timestamp it + Cache.ttl it <= now ->
   Cache.cache (Cache.fire_timers now this) !! key = None) /\
  (~ 1 <= Cache.ttl it <= Cache.TIMEOUT_MAX ->
   Cache.timestamp it + 1 <= now ->
   Cache.cache (Cache.fire_timers now this) !! key = None).
Proof.
  intros Hreach Hit.
  destruct (cache_in_step this key Hreach) as [Hstep _].
  specialize (Hstep it Hit).
  assert (Hgone : Cache.timer_due (Cache.timestamp it) (Cache.ttl it) <= now ->
                  Cache.cache (Cache.fire_timers now this) !! key = None).
  { intros Hdue. unfold Cache.fire_timers. rewrite delete_all_cache.
    rewrite bool_decide_eq_true_2; [reflexivity|].
    apply elem_of_due_keys. eauto. }
  split.
  - intros Hrange Hdue. apply Hgone. rewrite timer_due_in_range by exact Hrange.
    exact Hdue.
  - intros Hrange Hdue. apply Hgone. unfold Cache.timer_due.
    destruct (Z.leb 1 (Cache.ttl it) && Z.leb (Cache.ttl it) Cache.TIMEOUT_MAX)
      eqn:Hin; [|exact Hdue].
    apply andb_true_iff in Hin as [Hlo Hhi].
    apply Z.leb_le in Hlo. apply Z.leb_le in Hhi. lia.
Qed.

Lemma unread_entry_removed_when_timer_due_witness :
  (Cache.reachable (Cache.set "k" (Js.JStr "v") 2592000 0 Cache.empty) /\
   Cache.cache (Cache.set "k" (Js.JStr "v") 2592000 0 Cache.empty) !! "k"
   = Some (Cache.mkItem (Js.JStr "v") 0 2592000000) /\
   ~ 1 <= Cache.ttl (Cache.mkItem (Js.JStr "v") 0 2592000000) <= Cache.TIMEOUT_MAX /\
   Cache.timestamp (Cache.mkItem (Js.JStr "v") 0 2592000000) + 1 <= 10) /\
  Cache.cache
    (Cache.fire_timers 10 (Cache.set "k" (Js.JStr "v") 2592000 0 Cache.empty))
    !! "k" = None.
Proof.
  assert (Hreach : Cache.reachable
                     (Cache.set "k" (Js.JStr "v") 2592000 0 Cache.empty))
    by repeat constructor.
  assert (Hit : Cache.cache (Cache.set "k" (Js.JStr "v") 2592000 0 Cache.empty)
                  !! "k" = Some (Cache.mkItem (Js.JStr "v") 0 2592000000))
    by apply lookup_insert_eq.
  assert (Hrange : ~ 1 <= Cache.ttl (Cache.mkItem (Js.JStr "v") 0 2592000000)
                        <= Cache.TIMEOUT_MAX)
    by (unfold Cache.TIMEOUT_MAX; simpl; lia).
  assert (Hdue : Cache.timestamp (Cache.mkItem (Js.JStr "v") 0 2592000000) + 1 <= 10)
    by (simpl; lia).
  split; [auto|].
  exact (proj2 (unread_entry_removed_when_timer_due _ "k" _ 10 Hreach Hit)
               Hrange Hdue).
Defined.

(** [delete] reports whether the key was stored.  Afterwards the key reads as
    a miss, and deleting a key that is not stored changes nothing. *)
Theorem delete_reports_presence
    (key : string) (now : Z) (this : Cache.MemoryCache) :
  (snd (Cache.delete key this) = true <-> is_Some (Cache.cache this !! key)) /\
  Cache.get key now (fst (Cache.delete key this))
  = (fst (Cache.delete key this), Js.JNull) /\
  (Cache.in_step this -> Cache.cache this !! key = None ->
   Cache.delete key this = (this, false)).
Proof.
  unfold Cache.delete. cbn [fst snd]. split; [|split].
  - apply bool_decide_eq_true.
  - unfold Cache.get. cbn [Cache.cache]. rewrite lookup_delete_eq. reflexivity.
  - intros Hstep Hnone. destruct (Hstep key) as [_ Htimer].
    rewrite (delete_id _ _ Hnone), (delete_id _ _ (Htimer Hnone)), Hnone.
    destruct this. reflexivity.
Qed.

Lemma delete_reports_presence_witness :
  (Cache.in_step Cache.empty /\ Cache.cache Cache.empty !! "k" = None) /\
  Cache.delete "k" Cache.empty = (Cache.empty, false).
Proof.
  assert (Hstep : Cache.in_step Cache.empty).
  { intros key. cbn [Cache.empty Cache.cache Cache.timers].
    split; [intros it H; rewrite lookup_empty in H; discriminate H|].
    intros _. apply lookup_empty. }
  assert (Hnone : Cache.cache Cache.empty !! "k" = None) by apply lookup_empty.
  split; [split; assumption|].
  exact (proj2 (proj2 (delete_reports_presence "k" 0 Cache.empty)) Hstep Hnone).
Defined.

(** ** When the middleware stays out of the way, and what a hit serves *)

(** [cacheMiddleware] steps aside exactly when caching is switched off for
    the route, the process runs with NODE_ENV 'test', the request carries a
    principal and the route has not opted in to caching authenticated
    responses, or the route's condition rejects the request.  Then the cache
    is neither read nor written: the handler runs, the cache is as before and
    the response has no header from the middleware, even when an entry for
    the request's key is stored. *)
Theorem cacheMiddleware_bypass_conditions
    (opts : Cache.Options) (NODE_ENV : option string) (h : Cache.handler)
    (this : Cache.MemoryCache) (req : Request) (now sent : Z) :
  (snd (Cache.cacheMiddleware opts NODE_ENV this req now) = Cache.Bypass <->
   Cache.skipCache opts = true \/ NODE_ENV = Some "test" \/
   (is_Some (user req) /\ Cache.cacheAuthenticated opts = false) \/
   (exists cond, Cache.condition opts = Some cond /\ cond req = false)) /\
  (snd (Cache.cacheMiddleware opts NODE_ENV this req now) = Cache.Bypass ->
   Cache.cache_after (Cache.serve opts NODE_ENV h this req now sent) = this /\
   Cache.handler_ran (Cache.serve opts NODE_ENV h this req now sent) = true /\
   Cache.headers (Cache.response (Cache.serve opts NODE_ENV h this req now sent))
   = ∅).
Proof.
  unfold Cache.serve, Cache.cacheMiddleware.
  destruct (Cache.skipCache opts) eqn:Hskip; cbn [orb].
  { destruct (h req now). cbn. split; [split; auto | auto]. }
  destruct (bool_decide (NODE_ENV = Some "test")) eqn:Henv.
  { apply bool_decide_eq_true in Henv. destruct (h req now). cbn.
    split; [split; auto | auto]. }
  apply bool_decide_eq_false in Henv.
  destruct (bool_decide (is_Some (user req))) eqn:Huser; cbn [andb].
  - apply bool_decide_eq_true in Huser.
    destruct (Cache.cacheAuthenticated opts) eqn:Hauth; cbn [negb].
    + destruct (Cache.condition opts) as [cond|] eqn:Hcond.
      * destruct (cond req) eqn:Hc; cbn [negb].
        -- destruct (Cache.get (Cache.cache_key opts req) now this) as [c v].
           destruct (Js.truthy v); cbn [snd].
           ++ split; [|discriminate]. split; [discriminate|].
              intros [H | [H | [[_ H] | (c0 & H0 & H1)]]]; congruence.
           ++ destruct (h req now). split; [|discriminate]. split; [discriminate|].
              intros [H | [H | [[_ H] | (c0 & H0 & H1)]]]; congruence.
        -- destruct (h req now). cbn. split; [split; eauto 6 | auto].
      * destruct (Cache.get (Cache.cache_key opts req) now this) as [c v].
        destruct (Js.truthy v); cbn [snd].
        -- split; [|discriminate]. split; [discriminate|].
           intros [H | [H | [[_ H] | (c0 & H0 & H1)]]]; congruence.
        -- destruct (h req now). split; [|discriminate]. split; [discriminate|].
           intros [H | [H | [[_ H] | (c0 & H0 & H1)]]]; congruence.
    + destruct (h req now). cbn. split; [split; auto 6 | auto].
  - apply bool_decide_eq_false in Huser.
    destruct (Cache.condition opts) as [cond|] eqn:Hcond.
    + destruct (cond req) eqn:Hc; cbn [negb].
      * destruct (Cache.get (Cache.cache_key opts req) now this) as [c v].
        destruct (Js.truthy v); cbn [snd].
        -- split; [|discriminate]. split; [discriminate|].
           intros [H | [H | [[H _] | (c0 & H0 & H1)]]]; congruence.
        -- destruct (h req now). split; [|discriminate]. split; [discriminate|].
           intros [H | [H | [[H _] | (c0 & H0 & H1)]]]; congruence.
      * destruct (h req now). cbn. split; [split; eauto 6 | auto].
    + destruct (Cache.get (Cache.cache_key opts req) now this) as [c v].
      destruct (Js.truthy v); cbn [snd].
      * split; [|discriminate]. split; [discriminate|].
        intros [H | [H | [[H _] | (c0 & H0 & H1)]]]; congruence.
      * destruct (h req now). split; [|discriminate]. split; [discriminate|].
        intros [H | [H | [[H _] | (c0 & H0 & H1)]]]; congruence.
Qed.

Lemma cacheMiddleware_bypass_conditions_witness :
  snd (Cache.cacheMiddleware Cache.default_options None Sample.warm_cache
         (Sample.as_user Sample.alice ∅) 100) = Cache.Bypass /\
  Cache.cache_after
    (Cache.serve Cache.default_options None Sample.list_handler Sample.warm_cache
       (Sample.as_user Sample.alice ∅) 100 105) = Sample.warm_cache.
Proof.
  assert (Hbypass : snd (Cache.cacheMiddleware Cache.default_options None
                           Sample.warm_cache (Sample.as_user Sample.alice ∅) 100)
                    = Cache.Bypass) by reflexivity.
  split; [exact Hbypass|].
  exact (proj1 (proj2 (cacheMiddleware_bypass_conditions
                         Cache.default_options None Sample.list_handler
                         Sample.warm_cache (Sample.as_user Sample.alice ∅) 100 105)
                      Hbypass)).
Defined.

Lemma hit_lookup (opts : Cache.Options) (NODE_ENV : option string)
    (this this1 : Cache.MemoryCache) (req : Request) (now : Z)
    (key : string) (cachedResponse : Js.value) :
  Cache.cacheMiddleware opts NODE_ENV this req now
  = (this1, Cache.Hit key cachedResponse) ->
  key = Cache.cache_key opts req /\
  exists it, Cache.cache this !! key = Some it.
Proof.
  unfold Cache.cacheMiddleware.
  destruct (_ || _); [discriminate|].
  destruct (_ && _); [discriminate|].
  destruct (match Cache.condition opts with
            | Some cond => negb (cond req)
            | None => false
            end); [discriminate|].
  unfold Cache.get.
  destruct (Cache.cache this !! Cache.cache_key opts req) as [it|] eqn:Hit;
    [|discriminate].
  destruct (Z.ltb (Cache.ttl it) (now - Cache.timestamp it)); [discriminate|].
  destruct (Js.truthy (Cache.data it)); [|discriminate].
  intros Heq. injection Heq as _ <- _. eauto.
Qed.




(** ** [apiCache] *)

Lemma api_key_includes_api (req : Request) :
  Js.includes (Cache.api_key req) "api" = true.
Proof.
  apply includes_substring. exists "". eexists. unfold Cache.api_key. reflexivity.
Qed.

(** [apiCache] serves and stores GET requests only, and every key it makes
    contains 'api'.  So once a response with a 2xx status has gone through
    [invalidateCache] with 'api' among its tags, as the mutating routes pass
    it, no request through [apiCache] is answered from the cache, whatever
    its path: each one misses until it is stored again. *)
Theorem apiCache_emptied_by_api_tag
    (ttl_s : Z) (NODE_ENV : option string) (patterns : list string)
    (this : Cache.MemoryCache) (res : Cache.Response) (req : Request) (now : Z) :
  (method req <> "GET" ->
   Cache.cacheMiddleware (Cache.apiCache ttl_s) NODE_ENV this req now
   = (this, Cache.Bypass)) /\
  (200 <= Cache.statusCode res < 300 -> In "api" patterns ->
   forall key cachedResponse,
     snd (Cache.cacheMiddleware (Cache.apiCache ttl_s) NODE_ENV
            (Cache.send_on_invalidate patterns this res) req now)
     <> Cache.Hit key cachedResponse).
Proof.
  split.
  - intros Hmethod. unfold Cache.cacheMiddleware.
    cbn [Cache.apiCache Cache.skipCache Cache.cacheAuthenticated Cache.condition
         orb negb].
    destruct (bool_decide (NODE_ENV = Some "test")); [reflexivity|].
    destruct (bool_decide (is_Some (user req)) && true); [reflexivity|].
    rewrite (proj2 (String.eqb_neq _ _)) by exact Hmethod. reflexivity.
  - intros Hok Htag key v Hhit.
    destruct (Cache.cacheMiddleware (Cache.apiCache ttl_s) NODE_ENV
                (Cache.send_on_invalidate patterns this res) req now)
      as [this1 l] eqn:Hrun.
    cbn [snd] in Hhit. subst l.
    apply hit_lookup in Hrun as (Hkey & it & Hit).
    cbn [Cache.cache_key Cache.apiCache Cache.keyGenerator] in Hkey. subst key.
    rewrite (send_on_invalidate_success _ _ _ Hok) in Hit.
    rewrite invalidate_patterns_cache in Hit.
    assert (Hex : existsb (Js.includes (Cache.api_key req)) patterns = true).
    { apply existsb_exists. exists "api". split; [exact Htag|].
      apply api_key_includes_api. }
    rewrite Hex in Hit. discriminate Hit.
Qed.

Lemma apiCache_emptied_by_api_tag_witness :
  (200 <= Cache.statusCode (Cache.fresh_response 201) < 300 /\
   In "api" ["categories"; "api"]) /\
  snd (Cache.cacheMiddleware (Cache.apiCache 1800) None
         (Cache.send_on_invalidate ["categories"; "api"] Sample.warm_cache
            (Cache.fresh_response 201))
         (mkRequest "GET" "/api/v1/products" "/products" "{}" None ∅ None) 1000)
  <> Cache.Hit "api:GET:_products:{}" (Js.JObj [("success", Js.JBool true)]).
Proof.
  assert (Hok : 200 <= Cache.statusCode (Cache.fresh_response 201) < 300)
    by (simpl; lia).
  assert (Htag : In "api" ["categories"; "api"]) by (right; left; reflexivity).
  split; [split; assumption|].
  exact (proj2 (apiCache_emptied_by_api_tag 1800 None ["categories"; "api"]
                  Sample.warm_cache (Cache.fresh_response 201)
                  (mkRequest "GET" "/api/v1/products" "/products" "{}" None ∅ None)
                  1000) Hok Htag _ _).
Defined.








(** ** What invalidation and rejection leave alone *)

(** [invalidateCache] only ever removes: after the wrapped [send], every key
    is either absent or holds the entry it held before.  When the status is
    not 2xx, or the list of patterns is empty, the cache is exactly as it
    was: a failed mutation invalidates nothing. *)
Theorem invalidateCache_only_removes
    (patterns : list string) (this : Cache.MemoryCache) (res : Cache.Response)
    (key : string) :
  (Cache.cache (Cache.send_on_invalidate patterns this res) !! key = None \/
   Cache.cache (Cache.send_on_invalidate patterns this res) !! key
   = Cache.cache this !! key) /\
  (~ 200 <= Cache.statusCode res < 300 ->
   Cache.send_on_invalidate patterns this res = this) /\
  (patterns = [] -> Cache.send_on_invalidate patterns this res = this).
Proof.
  split; [|split].
  - unfold Cache.send_on_invalidate.
    destruct (_ && _); [|right; reflexivity].
    destruct (Nat.ltb 0 (length patterns)); [|right; reflexivity].
    rewrite invalidate_patterns_cache.
    destruct (existsb (Js.includes key) patterns); [left | right]; reflexivity.
  - intros Hfail. unfold Cache.send_on_invalidate.
    destruct (Z.leb 200 (Cache.statusCode res)) eqn:Hlo; [|reflexivity].
    destruct (Z.ltb (Cache.statusCode res) 300) eqn:Hhi; [|reflexivity].
    apply Z.leb_le in Hlo. apply Z.ltb_lt in Hhi. lia.
  - intros ->. unfold Cache.send_on_invalidate.
    destruct (_ && _); reflexivity.
Qed.

Lemma invalidateCache_only_removes_witness :
  ~ 200 <= Cache.statusCode (Cache.fresh_response 422) < 300 /\
  Cache.send_on_invalidate ["products"; "api"] Sample.warm_cache
    (Cache.fresh_response 422) = Sample.warm_cache.
Proof.
  assert (Hfail : ~ 200 <= Cache.statusCode (Cache.fresh_response 422) < 300)
    by (simpl; lia).
  split; [exact Hfail|].
  exact (proj1 (proj2 (invalidateCache_only_removes
                         ["products"; "api"] Sample.warm_cache
                         (Cache.fresh_response 422) "k")) Hfail).
Defined.

(** A rejected request is not logged, so it does not count against later
    ones: after a 429 every later request of the user is answered as if the
    rejected one had never been sent. *)
Theorem userRateLimit_rejection_not_counted
    (maxRequests windowMs : Z) (store : Auth.history) (req : Request)
    (u : User.t) (now later : Z) (message : string) :
  user req = Some u ->
  snd (Auth.userRateLimit maxRequests windowMs store req now)
  = Respond 429 message ->
  now <= later ->
  snd (Auth.userRateLimit maxRequests windowMs
         (fst (Auth.userRateLimit maxRequests windowMs store req now)) req later)
  = snd (Auth.userRateLimit maxRequests windowMs store req later).
Proof.
  intros Huser Hrejected Hlater.
  assert (Hlog : default []
                   (fst (Auth.userRateLimit maxRequests windowMs store req now)
                      !! User.id u)
                 = Auth.live windowMs store (User.id u) now).
  { revert Hrejected. unfold Auth.userRateLimit. rewrite Huser.
    fold (Auth.live windowMs store (User.id u) now).
    destruct (Z.leb maxRequests _); [|discriminate].
    intros _. cbn [fst]. rewrite lookup_insert_eq. reflexivity. }
  unfold Auth.userRateLimit at 1 3. rewrite Huser, Hlog.
  unfold Auth.live. rewrite filter_later_window by exact Hlater.
  destruct (Z.leb maxRequests _); reflexivity.
Qed.

Lemma userRateLimit_rejection_not_counted_witness :
  (user (Sample.as_user Sample.alice ∅) = Some Sample.alice /\
   snd (Auth.userRateLimit 2 10 {[7 := [100; 101]]}
          (Sample.as_user Sample.alice ∅) 105)
   = Respond 429 "Rate limit exceeded" /\
   105 <= 110) /\
  snd (Auth.userRateLimit 2 10
         (fst (Auth.userRateLimit 2 10 {[7 := [100; 101]]}
                 (Sample.as_user Sample.alice ∅) 105))
         (Sample.as_user Sample.alice ∅) 110)
  = snd (Auth.userRateLimit 2 10 {[7 := [100; 101]]}
           (Sample.as_user Sample.alice ∅) 110).
Proof.
  assert (Hrejected : snd (Auth.userRateLimit 2 10 {[7 := [100; 101]]}
                             (Sample.as_user Sample.alice ∅) 105)
                      = Respond 429 "Rate limit exceeded")
    by (vm_compute; reflexivity).
  assert (Hlater : 105 <= 110) by lia.
  split; [repeat split; try assumption; reflexivity|].
  exact (userRateLimit_rejection_not_counted
           2 10 {[7 := [100; 101]]} (Sample.as_user Sample.alice ∅) Sample.alice
           105 110 "Rate limit exceeded" eq_refl Hrejected Hlater).
Defined.

(** The two validity tests agree on what is handed out: every token
    [findValidToken] returns also passes [isValid] at that instant. *)
Theorem findValidToken_returns_only_valid
    (now : Z) (rows : list RefreshToken.t) (tok : string) (r : RefreshToken.t) :
  RefreshToken.findValidToken now rows tok = Some r ->
  RefreshToken.isValid now r = true.
Proof.
  intros Hfind. apply findValidToken_Some in Hfind as (_ & _ & Hflag & Hlive).
  unfold RefreshToken.isValid, RefreshToken.isExpired. rewrite Hflag.
  destruct (RefreshToken.expiresAt_held r); [|reflexivity].
  rewrite (proj2 (Z.ltb_ge _ _)) by lia. reflexivity.
Qed.

Lemma findValidToken_returns_only_valid_witness :
  RefreshToken.findValidToken 500 [Sample.revoked_token; Sample.live_token] "rt-2"
  = Some Sample.live_token /\
  RefreshToken.isValid 500 Sample.live_token = true.
Proof.
  assert (Hfind : RefreshToken.findValidToken 500
                    [Sample.revoked_token; Sample.live_token] "rt-2"
                  = Some Sample.live_token) by reflexivity.
  split; [exact Hfind|].
  exact (findValidToken_returns_only_valid _ _ _ _ Hfind).
Defined.

Lemma expired_lookup (opts : Cache.Options) (NODE_ENV : option string)
    (this : Cache.MemoryCache) (req : Request) (now : Z) (it : Cache.item) :
  Cache.cache this !! Cache.cache_key opts req = Some it ->
  Cache.ttl it < now - Cache.timestamp it ->
  Cache.cacheMiddleware opts NODE_ENV this req now = (this, Cache.Bypass) \/
  Cache.cacheMiddleware opts NODE_ENV this req now
  = (fst (Cache.delete (Cache.cache_key opts req) this),
     Cache.Miss (Cache.cache_key opts req)).
Proof.
  intros Hit Hlate. unfold Cache.cacheMiddleware.
  destruct (Cache.skipCache opts || bool_decide (NODE_ENV = Some "test"));
    [left; reflexivity|].
  destruct (bool_decide (is_Some (user req)) && negb (Cache.cacheAuthenticated opts));
    [left; reflexivity|].
  destruct (match Cache.condition opts with
            | Some cond => negb (cond req)
            | None => false
            end); [left; reflexivity|].
  right. unfold Cache.get. rewrite Hit.
  rewrite (proj2 (Z.ltb_lt _ _)) by exact Hlate. reflexivity.
Qed.

(** A stored entry that has outlived its ttl is never what a request gets,
    whatever the route's options: the handler runs, and its own payload is
    passed on whenever the middleware is bypassed, the status is not 200, or
    the key may be a header value.  When the middleware is not bypassed and
    the status is 200, the stale entry is replaced by the new payload with
    the new instant; if the key may not be a header value,
    [res.set('X-Cache-Key', ...)] then throws a TypeError and no body is
    passed on. *)
Theorem expired_entry_is_not_served
    (opts : Cache.Options) (NODE_ENV : option string) (h : Cache.handler)
    (this : Cache.MemoryCache) (req : Request) (now sent : Z)
    (it : Cache.item) (status : Z) (payload : Js.value) :
  Cache.cache this !! Cache.cache_key opts req = Some it ->
  Cache.ttl it < now - Cache.timestamp it ->
  h req now = (status, payload) ->
  Cache.handler_ran (Cache.serve opts NODE_ENV h this req now sent) = true /\
  (snd (Cache.cacheMiddleware opts NODE_ENV this req now) = Cache.Bypass \/
   status <> 200 \/
   Js.valid_header_value (Cache.cache_key opts req) = true ->
   Cache.body (Cache.response (Cache.serve opts NODE_ENV h this req now sent))
   = Some payload /\
   Cache.thrown (Cache.serve opts NODE_ENV h this req now sent) = None) /\
  (snd (Cache.cacheMiddleware opts NODE_ENV this req now) <> Cache.Bypass ->
   status = 200 ->
   Cache.cache (Cache.cache_after (Cache.serve opts NODE_ENV h this req now sent))
     !! Cache.cache_key opts req
   = Some (Cache.mkItem payload sent (Cache.opt_ttl opts * 1000)) /\
   (Js.valid_header_value (Cache.cache_key opts req) = false ->
    Cache.body (Cache.response (Cache.serve opts NODE_ENV h this req now sent))
    = None /\
    Cache.thrown (Cache.serve opts NODE_ENV h this req now sent)
    = Some "TypeError")).
Proof.
  intros Hit Hlate Hh.
  destruct (expired_lookup opts NODE_ENV this req now it Hit Hlate)
    as [Hbypass | Hmiss].
  - unfold Cache.serve. rewrite Hbypass, Hh.
    cbn [snd Cache.handler_ran Cache.response Cache.originalJson Cache.body
         Cache.thrown].
    split; [reflexivity | split].
    + intros _. split; reflexivity.
    + intros Hne. exfalso. apply Hne. reflexivity.
  - destruct (Z.eq_dec status 200) as [-> | Hother].
    + rewrite (serve_on_miss_200 _ _ _ _ _ _ _ sent _ _ Hmiss Hh), Hmiss.
      cbn [snd].
      destruct (Js.valid_header_value (Cache.cache_key opts req));
        cbn [Cache.handler_ran Cache.cache_after Cache.response Cache.body
             Cache.thrown Cache.set Cache.cache].
      * split; [reflexivity | split].
        -- intros _. split; reflexivity.
        -- intros _ _. split; [apply lookup_insert_eq|].
           intros Hfalse. discriminate Hfalse.
      * split; [reflexivity | split].
        -- intros [Hb | [Hs | Hv]];
             [discriminate Hb | contradiction | discriminate Hv].
        -- intros _ _. split; [apply lookup_insert_eq|].
           intros _. split; reflexivity.
    + rewrite (serve_on_miss _ _ _ _ _ _ _ sent _ _ _ Hmiss Hh), Hmiss.
      unfold Cache.json_on_miss. cbn [Cache.fresh_response Cache.statusCode].
      rewrite (proj2 (Z.eqb_neq _ _)) by exact Hother.
      cbn [snd Cache.handler_ran Cache.response Cache.originalJson Cache.body
           Cache.thrown].
      split; [reflexivity | split].
      * intros _. split; reflexivity.
      * intros _ Hok. contradiction.
Qed.

Lemma expired_entry_is_not_served_witness :
  (Cache.cache Sample.warm_cache
     !! Cache.cache_key (Cache.apiCache 1800)
          (mkRequest "GET" "/api/v1/products" "/products" "{}" None ∅ None)
   = Some (Cache.mkItem (Js.JObj [("success", Js.JBool true)]) 0 1800000) /\
   Cache.ttl (Cache.mkItem (Js.JObj [("success", Js.JBool true)]) 0 1800000)
   < 1800001
     - Cache.timestamp (Cache.mkItem (Js.JObj [("success", Js.JBool true)]) 0 1800000) /\
   Sample.count_handler
     (mkRequest "GET" "/api/v1/products" "/products" "{}" None ∅ None) 1800001
   = (200, Js.JNum 0) /\
   Js.valid_header_value
     (Cache.cache_key (Cache.apiCache 1800)
        (mkRequest "GET" "/api/v1/products" "/products" "{}" None ∅ None)) = true) /\
  Cache.body
    (Cache.response
       (Cache.serve (Cache.apiCache 1800) None Sample.count_handler
          Sample.warm_cache
          (mkRequest "GET" "/api/v1/products" "/products" "{}" None ∅ None)
          1800001 1800002)) = Some (Js.JNum 0).
Proof.
  assert (Hit : Cache.cache Sample.warm_cache
                  !! Cache.cache_key (Cache.apiCache 1800)
                       (mkRequest "GET" "/api/v1/products" "/products" "{}" None ∅ None)
                = Some (Cache.mkItem (Js.JObj [("success", Js.JBool true)]) 0 1800000))
    by (vm_compute; reflexivity).
  assert (Hlate : Cache.ttl (Cache.mkItem (Js.JObj [("success", Js.JBool true)]) 0 1800000)
                  < 1800001
                    - Cache.timestamp
                        (Cache.mkItem (Js.JObj [("success", Js.JBool true)]) 0 1800000))
    by (simpl; lia).
  assert (Hh : Sample.count_handler
                 (mkRequest "GET" "/api/v1/products" "/products" "{}" None ∅ None)
                 1800001 = (200, Js.JNum 0)) by reflexivity.
  assert (Hvalid : Js.valid_header_value
                     (Cache.cache_key (Cache.apiCache 1800)
                        (mkRequest "GET" "/api/v1/products" "/products" "{}"
                                   None ∅ None)) = true)
    by (vm_compute; reflexivity).
  split; [auto|].
  destruct (expired_entry_is_not_served
              (Cache.apiCache 1800) None Sample.count_handler
              Sample.warm_cache _ 1800001 1800002 _ 200 (Js.JNum 0)
              Hit Hlate Hh) as (_ & Hsent & _).
  exact (proj1 (Hsent (or_intror (or_intror Hvalid)))).
Defined.
